(** * TransFit exercise enrichment: a shallow embedding of
    [transfit_enrich_exercises.py] and the properties of its pipeline.

    Conventions of the embedding.
    - A Python [str] is a [string] (a sequence of bytes); [str.lower] folds
      the ASCII letters only.
    - A JSON/SQL value that may be [None] is an [option]; Python truthiness
      ([x or d], [if x], [not x]) is written out by the helpers below.
    - A Python [int] is a [Z].
    - The Supabase tables are lists of rows; the OpenAI client and the
      success of an insert are oracles in a [World]. *)

From Stdlib Require Import ZArith Ascii.
From stdpp Require Import base list strings gmap pretty.

Local Open Scope Z_scope.
Set Warnings "-register-all,-clear-no-such-hyp".

(** ** Python string and truthiness helpers *)

(** [c.lower()] for one byte. *)
Definition lower_ascii (c : ascii) : ascii :=
  let n := N_of_ascii c in
  if ((65 <=? n) && (n <=? 90))%N then ascii_of_N (n + 32) else c.

(** [s.lower()]. *)
Fixpoint lower (s : string) : string :=
  match s with
  | EmptyString => EmptyString
  | String c s' => String (lower_ascii c) (lower s')
  end.

(** [k in text] on strings: [k] occurs as a substring of [text]. *)
Fixpoint str_in (k text : string) : bool :=
  String.prefix k text ||
  match text with
  | EmptyString => false
  | String _ text' => str_in k text'
  end.

(** Truthiness of a string: non-empty. *)
Definition str_truthy (s : string) : bool :=
  match s with EmptyString => false | String _ _ => true end.

(** [x or d] where [x] is a string or [None]. *)
Definition str_or (x : option string) (d : string) : string :=
  match x with
  | Some s => if str_truthy s then s else d
  | None => d
  end.

(** [x or y] where both may be [None]; the result may still be falsy. *)
Definition opt_or (x y : option string) : option string :=
  match x with
  | Some s => if str_truthy s then x else y
  | None => y
  end.

(** [str(x)] inside an f-string, for a string or [None]. *)
Definition fmt (x : option string) : string :=
  match x with Some s => s | None => "None" end.

(** Truthiness of a boolean column that may be [None]. *)
Definition bool_truthy (x : option bool) : bool :=
  match x with Some b => b | None => false end.

(** [c.isspace()] for one byte, and [not s.strip()]. Strings are byte
    strings: the whitespace of the ASCII range is covered, which is all a
    context of the builder can start with (its first byte is a hyphen). *)
Definition is_space (c : ascii) : bool :=
  let n := N_of_ascii c in
  (((9 <=? n) && (n <=? 13)) || ((28 <=? n) && (n <=? 32)))%N.

Fixpoint strip_is_empty (s : string) : bool :=
  match s with
  | EmptyString => true
  | String c s' => is_space c && strip_is_empty s'
  end.

(** [sep.join(lines)]. *)
Fixpoint join (sep : string) (lines : list string) : string :=
  match lines with
  | [] => ""
  | [l] => l
  | l :: ls => l +:+ sep +:+ join sep ls
  end.

(** ** Data model *)

(** A row of [transfit_research]. *)
Record ResearchRow := {
  r_id : Z;
  r_title : option string;
  r_takeaways : option string;
  r_summary : option string;
  r_year : option Z;
  r_journal : option string;
  r_doi : option string;
  r_relevant : bool;
  r_topics : option (list string);
  r_processed : bool
}.

(** A row of [staging_exercisedb]. *)
Record StagingRow := {
  s_slug : option string;
  s_body_parts : option string;
  s_exercise_type : option string;
  s_target_muscles : option string
}.

(** An exercise dict: the columns selected from [exercises] and the three
    keys joined in by [load_exercises]. *)
Record Exercise := {
  ex_id : Z;
  ex_slug : string;
  ex_name : option string;
  ex_pattern : option string;
  ex_goal : option string;
  ex_difficulty : option string;
  ex_equipment : list string;
  ex_binder_aware : option bool;
  ex_pelvic_floor_safe : option bool;
  ex_body_parts : option string;
  ex_exercise_type : option string;
  ex_target_muscles : option string
}.

(** The value returned by [json.loads]. *)
Inductive json :=
  | JNull
  | JBool (b : bool)
  | JNum (n : Z)
  | JStr (s : string)
  | JArr (xs : list json)
  | JObj (kvs : list (string * json)).

(** Truthiness of a parsed JSON value ([if not tips_json]). *)
Definition json_truthy (j : json) : bool :=
  match j with
  | JNull => false
  | JBool b => b
  | JNum n => negb (n =? 0)
  | JStr s => str_truthy s
  | JArr xs => match xs with [] => false | _ => true end
  | JObj kvs => match kvs with [] => false | _ => true end
  end.

(** A row of [exercise_trans_tips]. *)
Record TipRecord := {
  t_exercise_id : Z;
  t_population : string;
  t_context : string;
  t_tips : json;
  t_source_dois : list string;
  t_needs_review : bool
}.

(** ** Topic vocabulary *)

(** Safety limit while testing; [None] processes all. *)
Definition MAX_EXERCISES : option Z := Some 25.

(** Topic keywords used to tag research, in the dict's insertion order. *)
Definition TOPIC_KEYWORDS : list (string * list string) :=
  [ ("hrt_strength",
      ["hormone"; "androgen"; "testosterone"; "estradiol";
       "sex steroid"; "muscle strength"; "lean mass"]);
    ("bone_health",
      ["bone density"; "bmd"; "osteoporosis"; "fracture"; "bone mineral"]);
    ("top_surgery",
      ["mastectomy"; "top surgery"; "chest surgery"; "breast surgery"]);
    ("cardio_risk",
      ["cardiovascular"; "cardio"; "aerobic"; "heart disease"; "hypertension"]);
    ("mental_health",
      ["depression"; "anxiety"; "mental health"; "distress"; "dysphoria"]) ].

(** The five topic tags. *)
Definition vocabulary : gset string :=
  list_to_set (TOPIC_KEYWORDS.*1).

(** ** Research helpers *)

(** Assign topic tags based on title + takeaways. *)
Definition tag_topics_for_research_row (row : ResearchRow) : list string :=
  let text := lower (fmt (r_title row) +:+ " " +:+ fmt (r_takeaways row)) in
  (filter (λ tk : string * list string,
             existsb (λ k, str_in (lower k) text) tk.2 = true)
          TOPIC_KEYWORDS).*1.

(** ** Exercise helpers *)

(** The body of [infer_topics_for_exercise] up to its [return]: the Python
    set [topics]. *)
Definition infer_topics (ex : Exercise) : gset string :=
  let topics : gset string := ∅ in
  let pattern := lower (str_or (ex_pattern ex) "") in
  let goal := lower (str_or (ex_goal ex) "") in
  let exercise_type := lower (str_or (ex_exercise_type ex) "") in
  let body_parts := lower (str_or (ex_body_parts ex) "") in
  let topics :=
    if bool_decide (pattern ∈ ["hinge"; "squat"; "lunge"; "carry"; "gait"])
    then topics ∪ list_to_set ["hrt_strength"; "bone_health"] else topics in
  let topics :=
    if bool_decide (pattern = "core")
    then topics ∪ list_to_set ["hrt_strength"; "bone_health"] else topics in
  let topics :=
    if bool_decide (goal = "conditioning")
       || bool_decide (exercise_type ∈ ["cardio"; "plyometrics"])
    then topics ∪ {["cardio_risk"]} else topics in
  let topics :=
    if bool_decide (goal ∈ ["mobility"; "recovery"])
    then topics ∪ list_to_set ["bone_health"; "top_surgery"] else topics in
  let topics :=
    if existsb (λ k, str_in k body_parts) ["chest"; "shoulder"; "upper arm"]
    then topics ∪ {["top_surgery"]} else topics in
  let topics :=
    if bool_truthy (ex_binder_aware ex)
    then topics ∪ {["top_surgery"]} else topics in
  let topics :=
    if negb (bool_truthy (ex_pelvic_floor_safe ex))
    then topics ∪ {["hrt_strength"]} else topics in
  topics.

(** [infer_topics_for_exercise]: [list(topics)]. *)
Definition infer_topics_for_exercise (ex : Exercise) : list string :=
  elements (infer_topics ex).

(** Scenario checks. *)
Definition scenario_A : Exercise :=
  {| ex_id := 1; ex_slug := "squat"; ex_name := Some "Squat";
     ex_pattern := Some "squat"; ex_goal := Some "strength";
     ex_difficulty := None; ex_equipment := [];
     ex_binder_aware := Some false; ex_pelvic_floor_safe := Some true;
     ex_body_parts := Some "legs"; ex_exercise_type := None;
     ex_target_muscles := None |}.

Definition scenario_B : ResearchRow :=
  {| r_id := 7;
     r_title := Some "Effects of testosterone on muscle strength in trans men";
     r_takeaways := Some "increased lean mass"; r_summary := None;
     r_year := Some 2021; r_journal := None; r_doi := None;
     r_relevant := true; r_topics := None; r_processed := false |}.

(** The effect of [update({"topics": topics, "processed": True})] on one
    row, also of [row["topics"] = topics; row["processed"] = True]. *)
Definition set_topics (topics : list string) (row : ResearchRow) : ResearchRow :=
  {| r_id := r_id row; r_title := r_title row;
     r_takeaways := r_takeaways row; r_summary := r_summary row;
     r_year := r_year row; r_journal := r_journal row; r_doi := r_doi row;
     r_relevant := r_relevant row;
     r_topics := Some topics; r_processed := true |}.

(** [supabase.table("transfit_research").update(...).eq("id", id).execute()]:
    every row of the table with that id is updated. *)
Definition research_update (id : Z) (topics : list string)
    (table : list ResearchRow) : list ResearchRow :=
  map (λ r, if bool_decide (r_id r = id) then set_topics topics r else r) table.

(** The guard of the write:
    [topics and (row.get("topics") != topics)]. *)
Definition needs_write (row : ResearchRow) : bool :=
  let topics := tag_topics_for_research_row row in
  bool_decide (topics ≠ []) && bool_decide (r_topics row ≠ Some topics).

(** What one run of the tagger leaves behind: the list it returns, the table
    and the log of the updates it sent, one (id, topics) per update. *)
Record TagRun := {
  updated_rows : list ResearchRow;
  table_after : list ResearchRow;
  writes : list (Z * list string)
}.

(** The [for row in rows] loop of [update_research_topics]. *)
Fixpoint tag_loop (rows table : list ResearchRow) : TagRun :=
  match rows with
  | [] => {| updated_rows := []; table_after := table; writes := [] |}
  | row :: rest =>
      let topics := tag_topics_for_research_row row in
      if needs_write row then
        let run := tag_loop rest (research_update (r_id row) topics table) in
        {| updated_rows := set_topics topics row :: updated_rows run;
           table_after := table_after run;
           writes := (r_id row, topics) :: writes run |}
      else
        let run := tag_loop rest table in
        {| updated_rows := row :: updated_rows run;
           table_after := table_after run;
           writes := writes run |}
  end.

(** Fetches relevant research rows, tags topics, writes them back, and
    returns the rows. *)
Definition update_research_topics (table : list ResearchRow) : TagRun :=
  let rows := filter (λ r, r_relevant r = true) table in
  tag_loop rows table.

(** [load_exercises]: join the staging metadata by slug. *)
Definition staging_by_slug (staging_rows : list StagingRow)
    : gmap string StagingRow :=
  foldl (λ m r, match s_slug r with
                | Some slug => if str_truthy slug then <[slug := r]> m else m
                | None => m
                end) ∅ staging_rows.

Definition join_staging (m : gmap string StagingRow) (ex : Exercise) : Exercise :=
  let s := m !! ex_slug ex in
  {| ex_id := ex_id ex; ex_slug := ex_slug ex; ex_name := ex_name ex;
     ex_pattern := ex_pattern ex; ex_goal := ex_goal ex;
     ex_difficulty := ex_difficulty ex; ex_equipment := ex_equipment ex;
     ex_binder_aware := ex_binder_aware ex;
     ex_pelvic_floor_safe := ex_pelvic_floor_safe ex;
     ex_body_parts := s ≫= s_body_parts;
     ex_exercise_type := s ≫= s_exercise_type;
     ex_target_muscles := s ≫= s_target_muscles |}.

Definition load_exercises (exercises : list Exercise)
    (staging_rows : list StagingRow) : list Exercise :=
  map (join_staging (staging_by_slug staging_rows)) exercises.

(** ** Context builder *)

(** [any(t in row_topics for t in exercise_topics)]. *)
Definition intersects (row_topics exercise_topics : list string) : bool :=
  existsb (λ t, bool_decide (t ∈ row_topics)) exercise_topics.

(** [row.get("topics") or []]. *)
Definition row_topics (row : ResearchRow) : list string :=
  default [] (r_topics row).

(** The scan of [build_research_context_for_topics]; [matched] is the list
    collected so far, and the length test after each row is the [break]. *)
Fixpoint scan (research_rows : list ResearchRow) (exercise_topics : list string)
    (max_articles : Z) (matched : list ResearchRow) : list ResearchRow :=
  match research_rows with
  | [] => matched
  | row :: rest =>
      let matched :=
        if intersects (row_topics row) exercise_topics
        then matched ++ [row] else matched in
      if bool_decide (max_articles ≤ Z.of_nat (length matched)) then matched
      else scan rest exercise_topics max_articles matched
  end.

Definition newline : string := String "010" "".

(** One line of the context. *)
Definition render_line (r : ResearchRow) : string :=
  let year := r_year r in
  let journal := str_or (r_journal r) "n.d." in
  let title := str_or (r_title r) "Untitled" in
  let takeaways := str_or (opt_or (r_takeaways r) (r_summary r)) "" in
  "- " +:+ title +:+ " (" +:+
  match year with Some y => pretty y | None => "n.d." end +:+
  ", " +:+ journal +:+ "): " +:+ takeaways.

(** The DOIs that are present and non-empty. *)
Definition dois_of (matched : list ResearchRow) : list string :=
  omap (λ r, match r_doi r with
             | Some d => if str_truthy d then Some d else None
             | None => None
             end) matched.

(** Given research rows and the exercise's topics, return a formatted
    context string plus a list of DOIs. *)
Definition build_research_context_for_topics
    (research_rows : list ResearchRow) (exercise_topics : list string)
    (max_articles : Z) : string * list string :=
  match exercise_topics with
  | [] => ("", [])
  | _ =>
      match scan research_rows exercise_topics max_articles [] with
      | [] => ("", [])
      | matched => (join newline (map render_line matched), dois_of matched)
      end
  end.

Definition default_max_articles : Z := 6.

(** [exercise_already_has_tips]: [(resp.count or 0) > 0]. *)
Definition exercise_already_has_tips (tips : list TipRecord)
    (exercise_id : Z) (population context : string) : bool :=
  bool_decide
    (0 < Z.of_nat (length (filter
       (λ t, t_exercise_id t = exercise_id ∧ t_population t = population
             ∧ t_context t = context) tips))).

(** ** Tip generation *)

(** What [openai_client.chat.completions.create] does on one call: it raises,
    or it returns a message whose content [json.loads] either parses
    ([Some]) or rejects with an exception ([None]). *)
Inductive api_response :=
  | ApiRaises
  | ApiContent (parsed : option json).

(** The collaborators the script cannot control.  The generation service
    answers the [n]-th call (counted over the life of the state) from the
    exercise profile, the research context and the DOIs that make up the
    prompt; the tip store accepts or rejects the [n]-th insert. *)
Record World := {
  chat_completions_create :
    nat → Exercise → string → list string → api_response;
  insert_succeeds : nat → TipRecord → bool
}.

(** The lines the loop of [main] prints, by exercise id. *)
Inductive Line :=
  | Skipping_existing_tips (exercise_id : Z)
  | No_topics_inferred (exercise_id : Z)
  | No_matching_research (exercise_id : Z)
  | Error_generating_tips (exercise_id : Z)
  | No_tips_generated (exercise_id : Z)
  | Inserted_tips (exercise_id : Z).

(** The tip table with what the run has done so far. *)
Record State := {
  exercise_trans_tips : list TipRecord;
  api_calls : nat;
  insert_calls : nat;
  stdout : list Line
}.

Definition print (l : Line) (st : State) : State :=
  {| exercise_trans_tips := exercise_trans_tips st;
     api_calls := api_calls st; insert_calls := insert_calls st;
     stdout := stdout st ++ [l] |}.

Definition count_api_call (st : State) : State :=
  {| exercise_trans_tips := exercise_trans_tips st;
     api_calls := S (api_calls st); insert_calls := insert_calls st;
     stdout := stdout st |}.

(** [generate_tips_json_for_exercise]: [None] is a raised exception. *)
Definition generate_tips_json_for_exercise (W : World) (exercise : Exercise)
    (research_context : string) (source_dois : list string) (st : State)
    : option json * State :=
  if strip_is_empty research_context then (Some (JObj []), st)
  else
    let response :=
      chat_completions_create W (api_calls st) exercise research_context
        source_dois in
    let st := count_api_call st in
    match response with
    | ApiRaises => (None, st)
    | ApiContent None => (None, st)
    | ApiContent (Some tips) => (Some tips, st)
    end.

(** [supabase.table("exercise_trans_tips").insert(...).execute()]: [None] is
    a raised exception, and then nothing was stored. *)
Definition insert_tip (W : World) (rec : TipRecord) (st : State)
    : option unit * State :=
  let ok := insert_succeeds W (insert_calls st) rec in
  let st' :=
    {| exercise_trans_tips :=
         if ok then exercise_trans_tips st ++ [rec] else exercise_trans_tips st;
       api_calls := api_calls st; insert_calls := S (insert_calls st);
       stdout := stdout st |} in
  (if ok then Some () else None, st').

(** ** Main pipeline *)

(** How one iteration of the loop ends: it goes on to the next exercise
    ([continue] or the end of the body) with the counter, or an exception
    leaves [main]. *)
Inductive step_result :=
  | Next (processed_count : Z) (st : State)
  | Raised (st : State).

(** The body of [for ex in exercises], after the limit test. *)
Definition loop_body (W : World) (research_rows : list ResearchRow)
    (population context : string) (ex : Exercise) (processed_count : Z)
    (st : State) : step_result :=
  let exercise_id := ex_id ex in
  if exercise_already_has_tips (exercise_trans_tips st) exercise_id
       population context
  then Next processed_count (print (Skipping_existing_tips exercise_id) st)
  else
    let ex_topics := infer_topics_for_exercise ex in
    match ex_topics with
    | [] => Next processed_count (print (No_topics_inferred exercise_id) st)
    | _ =>
      let '(research_context, dois) :=
        build_research_context_for_topics research_rows ex_topics
          default_max_articles in
      if negb (str_truthy research_context)
      then Next processed_count (print (No_matching_research exercise_id) st)
      else
        match generate_tips_json_for_exercise W ex research_context dois st with
        | (None, st) =>
            Next processed_count (print (Error_generating_tips exercise_id) st)
        | (Some tips_json, st) =>
            if negb (json_truthy tips_json)
            then Next processed_count (print (No_tips_generated exercise_id) st)
            else
              let rec :=
                {| t_exercise_id := exercise_id; t_population := population;
                   t_context := context; t_tips := tips_json;
                   t_source_dois := dois; t_needs_review := true |} in
              match insert_tip W rec st with
              | (None, st) => Raised st
              | (Some _, st) =>
                  Next (processed_count + 1)
                       (print (Inserted_tips exercise_id) st)
              end
        end
    end.

(** [MAX_EXERCISES is not None and processed_count >= MAX_EXERCISES]. *)
Definition limit_reached (max_exercises : option Z) (processed_count : Z) : bool :=
  match max_exercises with
  | Some m => bool_decide (m ≤ processed_count)
  | None => false
  end.

(** How [main] ends: normally, with the count it reports, or by the
    exception of a failed insert. *)
Inductive run_result :=
  | Done (processed_count : Z) (st : State)
  | Aborted (st : State).

(** The loop of [main]. *)
Fixpoint main_loop (W : World) (max_exercises : option Z)
    (research_rows : list ResearchRow) (population context : string)
    (exercises : list Exercise) (processed_count : Z) (st : State)
    : run_result :=
  match exercises with
  | [] => Done processed_count st
  | ex :: rest =>
      if limit_reached max_exercises processed_count
      then Done processed_count st
      else
        match loop_body W research_rows population context ex
                processed_count st with
        | Next processed_count st =>
            main_loop W max_exercises research_rows population context rest
              processed_count st
        | Raised st => Aborted st
        end
  end.

(** The tables [main] reads and writes. *)
Record Db := {
  transfit_research : list ResearchRow;
  exercises_table : list Exercise;
  staging_exercisedb : list StagingRow;
  tips_table : list TipRecord
}.

Definition fresh (tips : list TipRecord) : State :=
  {| exercise_trans_tips := tips; api_calls := 0; insert_calls := 0;
     stdout := [] |}.

(** [main], with the limit as a parameter; it returns the research table it
    leaves and how the loop ended. *)
Definition main_with (max_exercises : option Z) (W : World) (db : Db)
    : list ResearchRow * run_result :=
  let tagged := update_research_topics (transfit_research db) in
  let research_rows := updated_rows tagged in
  let exercises := load_exercises (exercises_table db) (staging_exercisedb db) in
  (table_after tagged,
   main_loop W max_exercises research_rows "general" "general" exercises 0
     (fresh (tips_table db))).

Definition main : World → Db → list ResearchRow * run_result :=
  main_with MAX_EXERCISES.

(** ** Notions the properties are stated with, and sample data *)

(** The tags an inference rule can add. *)
Definition inferable : gset string :=
  {["hrt_strength"; "bone_health"; "top_surgery"; "cardio_risk"]}.

(** The attributes the rules read. *)
Definition same_profile (a b : Exercise) : Prop :=
  ex_pattern a = ex_pattern b ∧ ex_goal a = ex_goal b ∧
  ex_exercise_type a = ex_exercise_type b ∧
  ex_body_parts a = ex_body_parts b ∧
  ex_binder_aware a = ex_binder_aware b ∧
  ex_pelvic_floor_safe a = ex_pelvic_floor_safe b.

(** The row's topics share a tag with the exercise's. *)
Definition hits (exercise_topics : list string) (row : ResearchRow) : Prop :=
  intersects (row_topics row) exercise_topics = true.

#[global] Instance hits_dec exercise_topics row :
  Decision (hits exercise_topics row).
Proof. unfold hits. apply _. Defined.

(** The article's stored topics and the exercise topics have a tag in
    common: the intersection the law speaks of, said without the test of the
    scan. *)
Definition shares_topic (exercise_topics : list string) (row : ResearchRow)
    : Prop :=
  ∃ t ts, t ∈ exercise_topics ∧ r_topics row = Some ts ∧ t ∈ ts.

#[global] Instance shares_topic_dec exercise_topics row :
  Decision (shares_topic exercise_topics row).
Proof.
  unfold shares_topic. destruct (r_topics row) as [ts|].
  - destruct (decide (Exists (λ t, t ∈ ts) exercise_topics)) as [H|H].
    + left. apply Exists_exists in H as (t & Ht & Hts). by exists t, ts.
    + right. intros (t & ts' & Ht & [= <-] & Hts).
      apply H, Exists_exists. by exists t.
  - right. by intros (t & ts & _ & [=] & _).
Defined.

(** A DOI column that holds a DOI: neither null nor the empty string. *)
Definition has_doi (doi : option string) : Prop :=
  doi ≠ None ∧ doi ≠ Some "".

#[global] Instance has_doi_dec doi : Decision (has_doi doi).
Proof. unfold has_doi. apply _. Defined.

(** First-match selection at one limit, as the specification words it: the
    selected rows are the first [max_articles] rows that share a topic, and
    they number at most [max_articles]. *)
Definition selects_first (max_articles : Z) (rows : list ResearchRow)
    (topics : list string) : Prop :=
  topics ≠ [] →
  scan rows topics max_articles [] =
    take (Z.to_nat max_articles) (filter (shares_topic topics) rows) ∧
  Z.of_nat (length (scan rows topics max_articles [])) ≤ max_articles.

(** The article of scenario B once tagged. *)
Definition evidence_row : ResearchRow :=
  set_topics ["hrt_strength"] scenario_B.

(** Tagged articles: one on another topic, one without a DOI, two with. *)
Definition cardio_article : ResearchRow :=
  {| r_id := 21; r_title := Some "Heart rate response to interval training";
     r_takeaways := None; r_summary := Some "Higher peak heart rate";
     r_year := Some 2019; r_journal := Some "Sports Med";
     r_doi := Some "10.1/cardio"; r_relevant := true;
     r_topics := Some ["cardio_risk"]; r_processed := true |}.

Definition strength_article : ResearchRow :=
  {| r_id := 22; r_title := Some "Strength gains under testosterone";
     r_takeaways := None; r_summary := Some "Strength rose over a year";
     r_year := Some 2020; r_journal := Some "J Endocrinol";
     r_doi := Some "10.1/strength"; r_relevant := true;
     r_topics := Some ["hrt_strength"]; r_processed := true |}.

Definition bone_article : ResearchRow :=
  {| r_id := 23; r_title := Some "Bone density and mood";
     r_takeaways := None; r_summary := None;
     r_year := None; r_journal := None;
     r_doi := Some "10.1/bone"; r_relevant := true;
     r_topics := Some ["mental_health"; "bone_health"]; r_processed := true |}.

Definition tagged_articles : list ResearchRow :=
  [cardio_article; evidence_row; strength_article; bone_article].

(** Two exercises that can both get a tip, for a run with the limit 1. *)
Definition second_squat : Exercise :=
  {| ex_id := 2; ex_slug := "goblet-squat"; ex_name := Some "Goblet squat";
     ex_pattern := Some "squat"; ex_goal := Some "strength";
     ex_difficulty := None; ex_equipment := [];
     ex_binder_aware := Some false; ex_pelvic_floor_safe := Some true;
     ex_body_parts := None; ex_exercise_type := None;
     ex_target_muscles := None |}.

Definition two_squats_db : Db :=
  {| transfit_research := [scenario_B];
     exercises_table := [scenario_A; second_squat];
     staging_exercisedb := []; tips_table := [] |}.

(** The update the loop sends for a row. *)
Definition tag_write (r : ResearchRow) : Z * list string :=
  (r_id r, tag_topics_for_research_row r).

(** What the loop does to a row it visits. *)
Definition settle (r : ResearchRow) : ResearchRow :=
  if needs_write r then set_topics (tag_topics_for_research_row r) r else r.

(** Replaying a log of updates on a table. *)
Definition replay (table : list ResearchRow) (ws : list (Z * list string))
    : list ResearchRow :=
  foldl (λ t w, research_update w.1 w.2 t) table ws.

(** The update the loop sends for a given id, if any: that of the first
    visited row with this id that needs a write. *)
Fixpoint write_for (rows : list ResearchRow) (id : Z) : option (list string) :=
  match rows with
  | [] => None
  | row :: rest =>
      if bool_decide (r_id row = id) && needs_write row
      then Some (tag_topics_for_research_row row)
      else write_for rest id
  end.




(** A relevant article tagged earlier whose text no longer hits a keyword. *)
Definition stale_row : ResearchRow :=
  {| r_id := 3; r_title := Some "Yoga for beginners";
     r_takeaways := Some "gentle stretching"; r_summary := None;
     r_year := None; r_journal := None; r_doi := None;
     r_relevant := true; r_topics := Some ["hrt_strength"];
     r_processed := true |}.

(** The guard of the write, as a proposition. *)
Definition changed (r : ResearchRow) : Prop :=
  tag_topics_for_research_row r ≠ [] ∧
  r_topics r ≠ Some (tag_topics_for_research_row r).

#[global] Instance changed_dec r : Decision (changed r).
Proof. unfold changed. apply _. Defined.

(** A small research table. *)
Definition research_table : list ResearchRow := [scenario_B; stale_row].

(** The state a run leaves. *)
Definition final_state (r : run_result) : State :=
  match r with Done _ st => st | Aborted st => st end.

(** The record [main] inserts for an exercise. *)
Definition tip_record (population context : string) (ex : Exercise)
    (tips_json : json) (dois : list string) : TipRecord :=
  {| t_exercise_id := ex_id ex; t_population := population;
     t_context := context; t_tips := tips_json;
     t_source_dois := dois; t_needs_review := true |}.

(** The iteration for [ex] gets as far as the generator call, with this
    context and these DOIs. *)
Definition generating (research_rows : list ResearchRow)
    (population context : string) (ex : Exercise) (st : State)
    (research_context : string) (dois : list string) : Prop :=
  exercise_already_has_tips (exercise_trans_tips st) (ex_id ex)
    population context = false ∧
  infer_topics_for_exercise ex ≠ [] ∧
  build_research_context_for_topics research_rows
    (infer_topics_for_exercise ex) default_max_articles
    = (research_context, dois) ∧
  str_truthy research_context = true.

(** What the script treats as a failed generation: the call raised, the
    content did not parse, or the parsed value is falsy. *)
Definition generation_failed (response : api_response) : Prop :=
  match response with
  | ApiRaises => True
  | ApiContent None => True
  | ApiContent (Some tips) => json_truthy tips = false
  end.

(** The iteration ended on one of the two skips that follow the generator
    call: same counter, same tip table, one call made. *)
Definition skipped_after_call (ex : Exercise) (processed_count : Z)
    (st : State) (result : step_result) : Prop :=
  result = Next processed_count
             (print (Error_generating_tips (ex_id ex)) (count_api_call st)) ∨
  result = Next processed_count
             (print (No_tips_generated (ex_id ex)) (count_api_call st)).

(** The state an iteration leaves. *)
Definition step_state (r : step_result) : State :=
  match r with Next _ st => st | Raised st => st end.

(** The three ways one iteration can end, as seen from the tip table, the
    counter and the call counts; [loop_body_spec] proves it of [loop_body]. *)
Inductive step_spec (population context : string) (ex : Exercise) (pc : Z)
    (st : State) : step_result → Prop :=
  | step_skipped (line : Line) (st' : State) :
      exercise_trans_tips st' = exercise_trans_tips st →
      (api_calls st ≤ api_calls st' ≤ S (api_calls st))%nat →
      insert_calls st' = insert_calls st →
      stdout st' = stdout st ++ [line] →
      line ≠ Inserted_tips (ex_id ex) →
      step_spec population context ex pc st (Next pc st')
  | step_persisted (rec : TipRecord) (st' : State) :
      exercise_already_has_tips (exercise_trans_tips st) (ex_id ex)
        population context = false →
      t_exercise_id rec = ex_id ex → t_population rec = population →
      t_context rec = context → t_needs_review rec = true →
      exercise_trans_tips st' = exercise_trans_tips st ++ [rec] →
      api_calls st' = S (api_calls st) →
      insert_calls st' = S (insert_calls st) →
      stdout st' = stdout st ++ [Inserted_tips (ex_id ex)] →
      step_spec population context ex pc st (Next (pc + 1) st')
  | step_raised (st' : State) :
      exercise_trans_tips st' = exercise_trans_tips st →
      api_calls st' = S (api_calls st) →
      insert_calls st' = S (insert_calls st) →
      stdout st' = stdout st →
      step_spec population context ex pc st (Raised st').

(** Tips stored for a key. *)
Definition count_tips (tips : list TipRecord) (exercise_id : Z)
    (population context : string) : nat :=
  length (filter (λ t, t_exercise_id t = exercise_id ∧
                       t_population t = population ∧
                       t_context t = context) tips).

(** Sequential runs of [main]: each run has its own collaborators and reads
    whatever the research, exercise and staging tables hold by then; the tip
    table is what the previous run left. *)
Record Run := {
  run_world : World;
  run_limit : option Z;
  run_research : list ResearchRow;
  run_exercises : list Exercise;
  run_staging : list StagingRow
}.

Definition run_main (tips : list TipRecord) (r : Run) : list TipRecord :=
  exercise_trans_tips (final_state
    (main_with (run_limit r) (run_world r)
       {| transfit_research := run_research r;
          exercises_table := run_exercises r;
          staging_exercisedb := run_staging r;
          tips_table := tips |}).2).

Definition run_all (tips : list TipRecord) (runs : list Run) : list TipRecord :=
  foldl run_main tips runs.

(** The keys the prompt asks the generator for. *)
Definition required_keys : list string :=
  ["form_focus"; "hrt_considerations"; "binding_considerations";
   "post_op_considerations"; "gender_affirming_modifications";
   "general_safety"; "disclaimer"; "source_dois"].

Definition has_required_keys (tips : json) : bool :=
  match tips with
  | JObj kvs => forallb (λ k, bool_decide (k ∈ kvs.*1)) required_keys
  | _ => false
  end.

(** A response that is a JSON object without [disclaimer]. *)
Definition malformed_tips : json :=
  JObj [("form_focus", JArr [JStr "Keep the knees over the toes."]);
        ("hrt_considerations", JArr []);
        ("binding_considerations", JArr []);
        ("post_op_considerations", JArr []);
        ("gender_affirming_modifications", JArr []);
        ("general_safety", JArr [JStr "Stop if you feel sharp pain."]);
        ("source_dois", JArr [])].

(** A generator that answers every call with [tips]; inserts succeed. *)
Definition answers (tips : json) : World :=
  {| chat_completions_create := λ _ _ _ _, ApiContent (Some tips);
     insert_succeeds := λ _ _, true |}.

(** Scenarios A and B as the tables of a first run. *)
Definition demo_db : Db :=
  {| transfit_research := [scenario_B]; exercises_table := [scenario_A];
     staging_exercisedb := []; tips_table := [] |}.

(** The run ends normally having written no tip and counted none. *)
Definition no_tip_written (W : World) (db : Db) : Prop :=
  ∃ st, (main W db).2 = Done 0 st ∧ exercise_trans_tips st = tips_table db.

(** When every response is [tips] and [tips] lacks a required key, no tip
    is written. *)
Definition missing_key_is_gen_error (W : World) (db : Db) (tips : json) : Prop :=
  (∀ n ex c d, chat_completions_create W n ex c d = ApiContent (Some tips)) →
  has_required_keys tips = false →
  no_tip_written W db.

(** The number of exercises the loop took through its body: each prints
    exactly one line. *)
Definition visited (r : run_result) : Z :=
  Z.of_nat (length (stdout (final_state r))).

Definition visits_within_limit (m : Z) (W : World) (db : Db) : Prop :=
  visited (main_with (Some m) W db).2 ≤ m.

(** Exercises for which no rule fires. *)
Definition idle_exercise (i : Z) : Exercise :=
  {| ex_id := i; ex_slug := "wrist-roll"; ex_name := Some "Wrist roll";
     ex_pattern := Some "isolation"; ex_goal := Some "strength";
     ex_difficulty := None; ex_equipment := [];
     ex_binder_aware := Some false; ex_pelvic_floor_safe := Some true;
     ex_body_parts := None; ex_exercise_type := None;
     ex_target_muscles := None |}.

(** Twenty-six of them, more than [MAX_EXERCISES]. *)
Definition idle_db : Db :=
  {| transfit_research := [scenario_B];
     exercises_table := idle_exercise <$> seqZ 1 26;
     staging_exercisedb := []; tips_table := [] |}.

(** One run over scenarios A and B. *)
Definition demo_run : Run :=
  {| run_world := answers malformed_tips; run_limit := MAX_EXERCISES;
     run_research := [scenario_B]; run_exercises := [scenario_A];
     run_staging := [] |}.

(** The context and DOIs built for scenario A from the tagged article. *)
Definition demo_context : string * list string :=
  build_research_context_for_topics [evidence_row]
    (infer_topics_for_exercise scenario_A) default_max_articles.

(** A generator that raises on every call, and a tip store that rejects
    every insert. *)
Definition raising : World :=
  {| chat_completions_create := λ _ _ _ _, ApiRaises;
     insert_succeeds := λ _ _, true |}.

Definition rejecting (tips : json) : World :=
  {| chat_completions_create := λ _ _ _ _, ApiContent (Some tips);
     insert_succeeds := λ _ _, false |}.

(** ** Notions for the further properties *)

(** The text the tagger searches. *)
Definition research_text (row : ResearchRow) : string :=
  lower (fmt (r_title row) +:+ " " +:+ fmt (r_takeaways row)).

(** [b] is [a] but for [topics] and [processed], and [processed] was not
    lowered. *)
Definition same_article (a b : ResearchRow) : Prop :=
  r_id b = r_id a ∧ r_title b = r_title a ∧ r_takeaways b = r_takeaways a ∧
  r_summary b = r_summary a ∧ r_year b = r_year a ∧
  r_journal b = r_journal a ∧ r_doi b = r_doi a ∧
  r_relevant b = r_relevant a ∧
  (r_processed a = true → r_processed b = true).

(** A table with an article whose title hits two topics. *)
Definition bone_row : ResearchRow :=
  {| r_id := 9; r_title := Some "Bone mineral density under testosterone";
     r_takeaways := None; r_summary := Some "BMD was preserved";
     r_year := None; r_journal := Some "J Bone"; r_doi := Some "10.1/bmd";
     r_relevant := true; r_topics := None; r_processed := false |}.

Definition irrelevant_row : ResearchRow :=
  {| r_id := 4; r_title := Some "Hormone pricing"; r_takeaways := None;
     r_summary := None; r_year := None; r_journal := None;
     r_doi := Some "10.1/price"; r_relevant := false; r_topics := None;
     r_processed := false |}.

Definition mixed_table : list ResearchRow :=
  [scenario_B; irrelevant_row; bone_row; stale_row].

(** The same article with a shorter and a longer abstract. *)
Definition short_row : ResearchRow :=
  {| r_id := 11; r_title := Some "Bone density in trans women";
     r_takeaways := Some "stable after two years"; r_summary := None;
     r_year := None; r_journal := None; r_doi := None;
     r_relevant := true; r_topics := None; r_processed := false |}.

Definition long_row : ResearchRow :=
  {| r_id := 11; r_title := Some "Bone density in trans women";
     r_takeaways := Some "stable after two years of testosterone";
     r_summary := None; r_year := None; r_journal := None; r_doi := None;
     r_relevant := true; r_topics := None; r_processed := false |}.

(** The staging row [load_exercises] joins to a slug: the last row of the
    staging table carrying that slug, none for the empty slug. *)
Definition staging_match (staging_rows : list StagingRow) (slug : string)
    : option StagingRow :=
  if str_truthy slug
  then last (filter (λ r, s_slug r = Some slug) staging_rows)
  else None.

(** The columns [load_exercises] reads from [exercises] are the same. *)
Definition same_exercise_columns (a b : Exercise) : Prop :=
  ex_id b = ex_id a ∧ ex_slug b = ex_slug a ∧ ex_name b = ex_name a ∧
  ex_pattern b = ex_pattern a ∧ ex_goal b = ex_goal a ∧
  ex_difficulty b = ex_difficulty a ∧ ex_equipment b = ex_equipment a ∧
  ex_binder_aware b = ex_binder_aware a ∧
  ex_pelvic_floor_safe b = ex_pelvic_floor_safe a.

(** The lowercased attributes the rules of the inferencer test. *)
Definition pattern_of (ex : Exercise) : string :=
  lower (str_or (ex_pattern ex) "").
Definition goal_of (ex : Exercise) : string :=
  lower (str_or (ex_goal ex) "").
Definition exercise_type_of (ex : Exercise) : string :=
  lower (str_or (ex_exercise_type ex) "").
Definition body_parts_of (ex : Exercise) : string :=
  lower (str_or (ex_body_parts ex) "").

(** The conditions of the rules. *)
Definition loaded_pattern (ex : Exercise) : Prop :=
  pattern_of ex ∈ ["hinge"; "squat"; "lunge"; "carry"; "gait"; "core"].
Definition conditioning (ex : Exercise) : Prop :=
  goal_of ex = "conditioning" ∨
  exercise_type_of ex ∈ ["cardio"; "plyometrics"].
Definition gentle_goal (ex : Exercise) : Prop :=
  goal_of ex ∈ ["mobility"; "recovery"].
Definition upper_body (ex : Exercise) : Prop :=
  ∃ k, k ∈ ["chest"; "shoulder"; "upper arm"] ∧
       str_in k (body_parts_of ex) = true.

(** Staging rows with a repeated slug, an empty slug and no slug. *)
Definition staging_sample : list StagingRow :=
  [ {| s_slug := Some "squat"; s_body_parts := Some "legs";
       s_exercise_type := Some "STRENGTH"; s_target_muscles := None |};
    {| s_slug := Some ""; s_body_parts := Some "chest";
       s_exercise_type := None; s_target_muscles := None |};
    {| s_slug := None; s_body_parts := Some "shoulder";
       s_exercise_type := None; s_target_muscles := None |};
    {| s_slug := Some "squat"; s_body_parts := Some "upper legs";
       s_exercise_type := Some "Plyometrics";
       s_target_muscles := Some "quads" |} ].

(** The exercise a printed line is about. *)
Definition line_id (l : Line) : Z :=
  match l with
  | Skipping_existing_tips i | No_topics_inferred i | No_matching_research i
  | Error_generating_tips i | No_tips_generated i | Inserted_tips i => i
  end.

Definition is_inserted (l : Line) : bool :=
  match l with Inserted_tips _ => true | _ => false end.

(** The [Inserted tips] lines of an output. *)
Definition inserted_lines (out : list Line) : nat :=
  length (filter (λ l, is_inserted l = true) out).

(** [rec] is a record the loop can write for one of [exercises]: the key of
    the run, a truthy tips value, the DOIs the builder returns for the topics
    of the exercise, and the review flag set. *)
Definition written_for (research_rows : list ResearchRow)
    (population context : string) (exercises : list Exercise)
    (rec : TipRecord) : Prop :=
  ∃ ex, ex ∈ exercises ∧
    infer_topics_for_exercise ex ≠ [] ∧
    json_truthy (t_tips rec) = true ∧
    rec = tip_record population context ex (t_tips rec)
            (build_research_context_for_topics research_rows
               (infer_topics_for_exercise ex) default_max_articles).2.

(** A record of the tip table has this key. *)
Definition has_key (exercise_id : Z) (population context : string)
    (rec : TipRecord) : Prop :=
  t_exercise_id rec = exercise_id ∧ t_population rec = population ∧
  t_context rec = context.

(** A stored tip for scenario A. *)
Definition stored_tip : TipRecord :=
  tip_record "general" "general" scenario_A
    (JObj [("form_focus", JArr [JStr "Brace before you descend."])]) [].

(** The state an iteration that only prints leaves. *)
Definition skip_all (st : State) (lines : list Line) : State :=
  {| exercise_trans_tips := exercise_trans_tips st;
     api_calls := api_calls st; insert_calls := insert_calls st;
     stdout := stdout st ++ lines |}.

(** The lines of the skips that come before the generator call. *)
Definition before_generation (l : Line) : bool :=
  match l with
  | Skipping_existing_tips _ | No_topics_inferred _
  | No_matching_research _ => true
  | _ => false
  end.

(** [rec] is a tip [main] can have written from the tables of [db]: the
    key, the review flag, an exercise of the exercise table, and DOIs that
    are DOIs of relevant research articles. *)
Definition traceable (db : Db) (rec : TipRecord) : Prop :=
  t_population rec = "general" ∧ t_context rec = "general" ∧
  t_needs_review rec = true ∧ json_truthy (t_tips rec) = true ∧
  (∃ ex, ex ∈ exercises_table db ∧ t_exercise_id rec = ex_id ex) ∧
  ∀ d, d ∈ t_source_dois rec →
    d ≠ "" ∧
    ∃ r, r ∈ transfit_research db ∧ r_relevant r = true ∧ r_doi r = Some d.

(** What the generation service answers, as the generator returns it. *)
Definition returned (response : api_response) : option json :=
  match response with
  | ApiRaises => None
  | ApiContent parsed => parsed
  end.

(** * Properties *)

(** ** Scenario checks *)

Example scenario_A_topics :
  infer_topics scenario_A = {["hrt_strength"; "bone_health"]}.
Proof. vm_compute. reflexivity. Qed.

Example scenario_B_topics :
  tag_topics_for_research_row scenario_B = ["hrt_strength"].
Proof. vm_compute. reflexivity. Qed.

(** ** The inferencer *)

Lemma if_union_subseteq (b : bool) (X Y S : gset string) :
  X ⊆ S → Y ⊆ S → (if b then X ∪ Y else X) ⊆ S.
Proof. destruct b; set_solver. Qed.

Lemma infer_topics_inferable (ex : Exercise) : infer_topics ex ⊆ inferable.
Proof.
  unfold infer_topics.
  repeat (apply if_union_subseteq; [| unfold inferable; set_solver]).
  set_solver.
Qed.

Lemma inferable_vocabulary : inferable ⊆ vocabulary.
Proof. unfold inferable, vocabulary. simpl. set_solver. Qed.

Lemma infer_topics_profile (a b : Exercise) :
  same_profile a b → infer_topics a = infer_topics b.
Proof.
  intros (Hp & Hg & Ht & Hb & Hba & Hpf).
  unfold infer_topics. rewrite Hp, Hg, Ht, Hb, Hba, Hpf. reflexivity.
Qed.

(** ** The context builder *)

Lemma intersects_spec (rt et : list string) :
  intersects rt et = true ↔ ∃ t, t ∈ et ∧ t ∈ rt.
Proof.
  unfold intersects. rewrite existsb_exists. split.
  - intros (t & Hin & Hd). exists t. split.
    + by apply list_elem_of_In.
    + by apply bool_decide_eq_true in Hd.
  - intros (t & Hin & Hd). exists t. split.
    + by apply list_elem_of_In.
    + by apply bool_decide_eq_true.
Qed.

(** With room left in [matched], the scan appends the first matches up to
    the limit. *)
Lemma scan_take (rows : list ResearchRow) (topics : list string) (max : Z) :
  ∀ acc : list ResearchRow,
    Z.of_nat (length acc) < max →
    scan rows topics max acc =
    acc ++ take (Z.to_nat max - length acc)%nat (filter (hits topics) rows).
Proof.
  induction rows as [|row rest IH]; intros acc Hlt; simpl.
  - by rewrite filter_nil, take_nil, app_nil_r.
  - destruct (intersects (row_topics row) topics) eqn:Hi.
    + rewrite filter_cons_True by exact Hi.
      replace (Z.to_nat max - length acc)%nat
        with (S (Z.to_nat max - length acc - 1))%nat by lia.
      simpl. case_bool_decide as Hfull.
      * rewrite length_app in Hfull. simpl in Hfull.
        replace (Z.to_nat max - length acc - 1)%nat with 0%nat by lia.
        by rewrite take_0.
      * rewrite length_app in Hfull. simpl in Hfull.
        rewrite IH by (rewrite length_app; simpl; lia).
        rewrite <- app_assoc. simpl. do 3 f_equal.
        rewrite length_app. simpl. lia.
    + rewrite filter_cons_False by (unfold hits; congruence).
      case_bool_decide as Hfull; [lia|]. by apply IH.
Qed.

Lemma scan_first_matches (rows : list ResearchRow) (topics : list string)
    (max : Z) :
  1 ≤ max →
  scan rows topics max [] = take (Z.to_nat max) (filter (hits topics) rows).
Proof.
  intros Hmax. rewrite scan_take by (simpl; lia). simpl.
  by rewrite Nat.sub_0_r.
Qed.

(** Whatever the limit, a scanned row was collected before or matches. *)
Lemma scan_elem (rows : list ResearchRow) (topics : list string) (max : Z) :
  ∀ (acc : list ResearchRow) (row : ResearchRow),
    row ∈ scan rows topics max acc →
    row ∈ acc ∨ (row ∈ rows ∧ hits topics row).
Proof.
  induction rows as [|r rest IH]; intros acc row; simpl.
  - by left.
  - destruct (intersects (row_topics r) topics) eqn:Hi.
    + case_bool_decide.
      * rewrite elem_of_app, list_elem_of_singleton.
        intros [? | ->]; [by left|]. right. split; [left|exact Hi].
      * intros Hin. apply IH in Hin as [Hin|[Hin Hh]].
        -- apply elem_of_app in Hin as [?|Hin]; [by left|].
           apply list_elem_of_singleton in Hin as ->.
           right. split; [left|exact Hi].
        -- right. split; [by right|done].
    + case_bool_decide; [by left|].
      intros Hin. apply IH in Hin as [?|[Hin Hh]]; [by left|].
      right. split; [by right|done].
Qed.

Lemma render_line_nonempty (r : ResearchRow) : render_line r ≠ "".
Proof. unfold render_line. simpl. discriminate. Qed.

Lemma join_nonempty (sep : string) (l : string) (ls : list string) :
  l ≠ "" → join sep (l :: ls) ≠ "".
Proof.
  intros Hl. destruct ls as [|l' ls]; simpl; [done|].
  destruct l; [done|]. simpl. discriminate.
Qed.

Lemma context_nonempty (r : ResearchRow) (rs : list ResearchRow) :
  join newline (map render_line (r :: rs)) ≠ "".
Proof. simpl map. apply join_nonempty, render_line_nonempty. Qed.

(** The builder in terms of the rows it selected. *)
Lemma build_selected (rows : list ResearchRow) (topics : list string) (max : Z) :
  topics ≠ [] →
  build_research_context_for_topics rows topics max =
  match scan rows topics max [] with
  | [] => ("", [])
  | matched => (join newline (map render_line matched), dois_of matched)
  end.
Proof. intros Hne. unfold build_research_context_for_topics. by destruct topics. Qed.

Lemma take_filter_nil (n : nat) (topics : list string) (rows : list ResearchRow) :
  (1 ≤ n)%nat →
  take n (filter (hits topics) rows) = [] ↔
  ∀ row, row ∈ rows → intersects (row_topics row) topics = false.
Proof.
  intros Hn. split.
  - intros Hnil row Hin.
    destruct (intersects (row_topics row) topics) eqn:Hi; [|done].
    assert (Hf : row ∈ filter (hits topics) rows)
      by (apply list_elem_of_filter; done).
    destruct (filter (hits topics) rows) as [|r rs]; [by inversion Hf|].
    destruct n; [lia|]. discriminate.
  - intros Hall.
    assert (Hf : filter (hits topics) rows = []).
    { destruct (filter (hits topics) rows) as [|r rs] eqn:Hf; [done|].
      assert (Hr : r ∈ filter (hits topics) rows) by (rewrite Hf; left).
      apply list_elem_of_filter in Hr as [Hh Hin].
      unfold hits in Hh. rewrite (Hall r Hin) in Hh. discriminate. }
    rewrite Hf. apply take_nil.
Qed.

(** The test of the scan says that the row shares a topic. *)
Lemma hits_shares_topic (topics : list string) (row : ResearchRow) :
  hits topics row ↔ shares_topic topics row.
Proof.
  unfold hits, shares_topic, row_topics. rewrite intersects_spec. split.
  - intros (t & Ht & Hrow). destruct (r_topics row) as [ts|]; cbn in Hrow.
    + by exists t, ts.
    + by apply not_elem_of_nil in Hrow.
  - intros (t & ts & Ht & -> & Hts). by exists t.
Qed.

Lemma filter_hits_shares (topics : list string) (rows : list ResearchRow) :
  filter (hits topics) rows = filter (shares_topic topics) rows.
Proof. apply list_filter_iff. intros row. apply hits_shares_topic. Qed.

Lemma no_hit_no_share (topics : list string) (row : ResearchRow) :
  intersects (row_topics row) topics = false ↔ ¬ shares_topic topics row.
Proof.
  rewrite <- hits_shares_topic. unfold hits.
  by destruct (intersects (row_topics row) topics).
Qed.

(** The DOIs collected are the DOI columns that hold one, in order. *)
Lemma dois_of_columns (matched : list ResearchRow) :
  Some <$> dois_of matched = filter has_doi (r_doi <$> matched).
Proof.
  unfold dois_of. induction matched as [|r rs IH]; [done|].
  rewrite fmap_cons. simpl omap.
  destruct (r_doi r) as [[|c d]|].
  - cbn [str_truthy]. rewrite filter_cons_False; [exact IH|].
    unfold has_doi. tauto.
  - cbn [str_truthy]. rewrite filter_cons_True by (by unfold has_doi).
    rewrite fmap_cons. f_equal. exact IH.
  - rewrite filter_cons_False; [exact IH|]. unfold has_doi. tauto.
Qed.

(** With a limit below one the scan stops after the first row, which it has
    collected if it matches: the length test follows the append. *)
Lemma scan_no_room (rows : list ResearchRow) (topics : list string) (max : Z) :
  max ≤ 0 →
  scan rows topics max [] = filter (shares_topic topics) (take 1 rows).
Proof.
  intros Hmax. destruct rows as [|row rest]; [done|]. cbn [scan take].
  rewrite <- filter_hits_shares.
  destruct (intersects (row_topics row) topics) eqn:Hi.
  - rewrite filter_cons_True by exact Hi.
    rewrite bool_decide_eq_true_2 by (cbn; lia). by rewrite ?filter_nil.
  - rewrite filter_cons_False by (unfold hits; congruence).
    rewrite bool_decide_eq_true_2 by (cbn; lia). by rewrite ?filter_nil.
Qed.

(** C7. Context emptiness law: for a limit of at least one article (the
    default is 6), the builder returns the empty string and the empty list
    exactly when the exercise topics are empty or no row shares a topic with
    them; otherwise the context string is non-empty, some row is selected,
    and the DOI list is that of the selected rows: their DOI columns that
    hold a DOI, in order. *)
Theorem context_emptiness_law (rows : list ResearchRow) (topics : list string)
    (max_articles : Z) :
  1 ≤ max_articles →
  let built := build_research_context_for_topics rows topics max_articles in
  let selected :=
    take (Z.to_nat max_articles) (filter (shares_topic topics) rows) in
  (built = ("", []) ↔
     topics = [] ∨ ∀ row, row ∈ rows → ¬ shares_topic topics row) ∧
  (built ≠ ("", []) →
     built.1 ≠ "" ∧ selected ≠ [] ∧
     Some <$> built.2 = filter has_doi (r_doi <$> selected)).
Proof.
  intros Hmax built selected. subst built selected.
  destruct (decide (topics = [])) as [->|Hne].
  { split; [|done]. split; [by left|done]. }
  rewrite build_selected by done. rewrite scan_first_matches by done.
  rewrite <- filter_hits_shares.
  pose proof (take_filter_nil (Z.to_nat max_articles) topics rows) as Hnil.
  destruct (take (Z.to_nat max_articles) (filter (hits topics) rows))
    as [|r rs] eqn:Hsel.
  - split; [|done]. split; [|done]. intros _. right.
    intros row Hrow. apply no_hit_no_share. revert row Hrow.
    apply Hnil; [lia|done].
  - split.
    + split.
      * intros Heq. exfalso. apply (context_nonempty r rs). by inversion Heq.
      * intros [?|Hall]; [done|].
        assert (Hall' : ∀ row, row ∈ rows →
                  intersects (row_topics row) topics = false)
          by (intros row Hrow; by apply no_hit_no_share, Hall).
        apply Hnil in Hall'; [done|lia].
    + intros _. split; [apply context_nonempty|]. split; [done|].
      cbn [snd]. apply dois_of_columns.
Qed.

Lemma context_emptiness_law_witness :
  1 ≤ default_max_articles ∧
  (build_research_context_for_topics tagged_articles
     (infer_topics_for_exercise scenario_A) default_max_articles).1 ≠ "" ∧
  (build_research_context_for_topics tagged_articles
     (infer_topics_for_exercise scenario_A) default_max_articles).2 =
  ["10.1/strength"; "10.1/bone"].
Proof.
  assert (Hmax : 1 ≤ default_max_articles) by (unfold default_max_articles; lia).
  split; [exact Hmax|].
  destruct (context_emptiness_law tagged_articles
              (infer_topics_for_exercise scenario_A) default_max_articles Hmax)
    as [_ Hfull].
  destruct Hfull as (Hctx & _ & Hdois); [by vm_compute|].
  split; [exact Hctx|].
  apply (inj (fmap Some)). rewrite Hdois. vm_compute. reflexivity.
Defined.

(** C9, as the code has it. First-match selection: for a limit of at least
    one article the rows the builder selects are exactly the first
    [max_articles] rows, in input order, that share a topic with the
    exercise, never more than [max_articles]. For a limit below one the
    bound does not hold: the length test follows the append, so the scan
    looks at the first row only and selects it if it matches. In both cases
    the selected rows are a subsequence of the input, and for non-empty
    exercise topics the context is rendered from them. *)
Theorem scan_selects_first_matches (rows : list ResearchRow)
    (topics : list string) (max_articles : Z) :
  let selected := scan rows topics max_articles [] in
  (1 ≤ max_articles →
     selected =
       take (Z.to_nat max_articles) (filter (shares_topic topics) rows) ∧
     Z.of_nat (length selected) ≤ max_articles) ∧
  (max_articles ≤ 0 →
     selected = filter (shares_topic topics) (take 1 rows)) ∧
  selected `sublist_of` rows ∧
  (topics ≠ [] →
     build_research_context_for_topics rows topics max_articles =
       match selected with
       | [] => ("", [])
       | _ => (join newline (map render_line selected), dois_of selected)
       end).
Proof.
  intros selected. subst selected.
  assert (Hfirst : 1 ≤ max_articles →
            scan rows topics max_articles [] =
            take (Z.to_nat max_articles) (filter (shares_topic topics) rows)).
  { intros Hmax. rewrite <- filter_hits_shares. by apply scan_first_matches. }
  split; [|split; [|split]].
  - intros Hmax. split; [by apply Hfirst|].
    rewrite Hfirst by done. rewrite length_take. lia.
  - apply scan_no_room.
  - destruct (decide (1 ≤ max_articles)) as [Hmax|Hmax].
    + rewrite Hfirst by done. etrans; [apply sublist_take|apply sublist_filter].
    + rewrite scan_no_room by lia.
      etrans; [apply sublist_filter|apply sublist_take].
  - intros Hne. rewrite build_selected by done.
    by destruct (scan rows topics max_articles []).
Qed.

Lemma scan_selects_first_matches_witness :
  scan tagged_articles (infer_topics_for_exercise scenario_A) 2 [] =
    [evidence_row; strength_article] ∧
  scan tagged_articles (infer_topics_for_exercise scenario_A) 0 [] = [] ∧
  scan [evidence_row; strength_article]
    (infer_topics_for_exercise scenario_A) 0 [] = [evidence_row].
Proof.
  split; [|split].
  - rewrite (proj1 (proj1 (scan_selects_first_matches tagged_articles
               (infer_topics_for_exercise scenario_A) 2) ltac:(lia))).
    vm_compute. reflexivity.
  - rewrite (proj1 (proj2 (scan_selects_first_matches tagged_articles
               (infer_topics_for_exercise scenario_A) 0)) ltac:(lia)).
    vm_compute. reflexivity.
  - rewrite (proj1 (proj2 (scan_selects_first_matches
               [evidence_row; strength_article]
               (infer_topics_for_exercise scenario_A) 0)) ltac:(lia)).
    vm_compute. reflexivity.
Defined.

(** At the limit 0 a matching first row is selected all the same: one
    article, more than the limit. *)
Lemma zero_limit_selects_one :
  ¬ selects_first 0 [evidence_row] ["hrt_strength"].
Proof.
  unfold selects_first. intros H. destruct H as [_ Hlen]; [done|].
  vm_compute in Hlen. by apply Hlen.
Qed.

(** C8. Inferencer purity and closure: every inferred tag belongs to the
    five-tag vocabulary, and the result is a function of the exercise alone,
    indeed of the six attributes the rules read, so that two calls on the
    same input yield the same set. *)
Theorem infer_closed_and_deterministic (ex : Exercise) :
  infer_topics ex ⊆ vocabulary ∧
  (∀ t, t ∈ infer_topics_for_exercise ex →
        t ∈ ["hrt_strength"; "bone_health"; "top_surgery"; "cardio_risk";
             "mental_health"]) ∧
  (∀ ex', same_profile ex ex' →
          infer_topics ex' = infer_topics ex ∧
          infer_topics_for_exercise ex' = infer_topics_for_exercise ex).
Proof.
  pose proof (infer_topics_inferable ex) as Hsub.
  split; [|split].
  - etrans; [exact Hsub|apply inferable_vocabulary].
  - intros t Ht. unfold infer_topics_for_exercise in Ht.
    apply elem_of_elements in Ht. apply Hsub in Ht.
    unfold inferable in Ht. set_solver.
  - intros ex' Hp. unfold infer_topics_for_exercise.
    by rewrite (infer_topics_profile ex ex' Hp).
Qed.

(** C10. No rule emits mental_health: the inferred set lies within the four
    other tags, and a row whose topics are all mental_health is never among
    the rows selected for an exercise, whatever the limit. *)
Theorem mental_health_never_inferred (ex : Exercise) :
  ("mental_health" ∉ infer_topics ex) ∧
  (infer_topics ex ⊆
    {["hrt_strength"; "bone_health"; "top_surgery"; "cardio_risk"]}) ∧
  (∀ (rows : list ResearchRow) (max_articles : Z) (row : ResearchRow),
      (∀ t, t ∈ row_topics row → t = "mental_health") →
      row ∉ scan rows (infer_topics_for_exercise ex) max_articles []).
Proof.
  pose proof (infer_topics_inferable ex) as Hsub.
  assert (Hno : "mental_health" ∉ infer_topics ex).
  { intros Hin. apply Hsub in Hin. unfold inferable in Hin. set_solver. }
  split; [done|]. split; [exact Hsub|].
  intros rows max_articles row Honly Hin.
  apply scan_elem in Hin as [Hin|[_ Hh]]; [by inversion Hin|].
  apply intersects_spec in Hh as (t & Ht & Hrow).
  apply Honly in Hrow as ->. unfold infer_topics_for_exercise in Ht.
  by apply elem_of_elements in Ht.
Qed.

(** ** The tagger *)

Lemma filter_nil_forall {A} (P : A → Prop) `{!∀ x, Decision (P x)} (l : list A) :
  (∀ x, x ∈ l → ¬ P x) → filter P l = [].
Proof.
  intros Hall. destruct (filter P l) as [|x xs] eqn:Hf; [done|].
  assert (Hx : x ∈ filter P l) by (rewrite Hf; left).
  apply list_elem_of_filter in Hx as [HP Hin]. by destruct (Hall x Hin).
Qed.


Lemma tag_set_topics (topics : list string) (r : ResearchRow) :
  tag_topics_for_research_row (set_topics topics r) =
  tag_topics_for_research_row r.
Proof. reflexivity. Qed.

Lemma needs_write_settle (r : ResearchRow) : needs_write (settle r) = false.
Proof.
  unfold settle. destruct (needs_write r) eqn:Hw; [|done].
  unfold needs_write. rewrite tag_set_topics. simpl.
  rewrite andb_false_iff. right. apply bool_decide_eq_false. by intros []. 
Qed.

(** The loop, row by row: the log, the returned rows and the table. *)
Lemma tag_loop_spec (rows : list ResearchRow) :
  ∀ table : list ResearchRow,
    writes (tag_loop rows table) =
      map tag_write (filter (λ r, needs_write r = true) rows) ∧
    updated_rows (tag_loop rows table) = map settle rows ∧
    table_after (tag_loop rows table) =
      replay table (writes (tag_loop rows table)).
Proof.
  induction rows as [|row rest IH]; intros table; simpl; [done|].
  unfold settle at 1. destruct (needs_write row) eqn:Hw; simpl.
  - destruct (IH (research_update (r_id row)
                    (tag_topics_for_research_row row) table)) as (Hws & Hup & Ht).
    rewrite filter_cons_True by done. simpl.
    rewrite Hws, Hup, Ht, Hws. done.
  - destruct (IH table) as (Hws & Hup & Ht).
    rewrite filter_cons_False by congruence.
    rewrite Hws, Hup, Ht, Hws. done.
Qed.

Lemma write_for_absent (rows : list ResearchRow) (id : Z) :
  id ∉ map r_id rows → write_for rows id = None.
Proof.
  induction rows as [|row rest IH]; simpl; [done|].
  intros Hnin. apply not_elem_of_cons in Hnin as [Hne Hnin].
  rewrite bool_decide_eq_false_2 by congruence. simpl. by apply IH.
Qed.

(** With distinct ids among the visited rows, the table the loop leaves is
    the old one with each row given the update sent for its id. *)
Lemma tag_loop_table (rows : list ResearchRow) :
  ∀ table : list ResearchRow,
    NoDup (map r_id rows) →
    table_after (tag_loop rows table) =
    map (λ r, match write_for rows (r_id r) with
              | Some topics => set_topics topics r
              | None => r
              end) table.
Proof.
  induction rows as [|row rest IH]; intros table Hnd; simpl.
  - by rewrite map_id.
  - apply NoDup_cons in Hnd as [Hnin Hnd].
    destruct (needs_write row) eqn:Hw; simpl.
    + rewrite IH by done. unfold research_update. rewrite map_map.
      apply map_ext. intros r. rewrite andb_true_r.
      case_bool_decide as Hid; simpl.
      * rewrite Hid, write_for_absent by done.
        by rewrite bool_decide_eq_true_2.
      * rewrite bool_decide_eq_false_2 by congruence. done.
    + rewrite IH by done. apply map_ext. intros r. by rewrite andb_false_r.
Qed.

Lemma write_for_own (table : list ResearchRow) (r : ResearchRow) :
  NoDup (map r_id table) → r ∈ table →
  write_for (filter (λ r, r_relevant r = true) table) (r_id r) =
  if r_relevant r && needs_write r
  then Some (tag_topics_for_research_row r) else None.
Proof.
  induction table as [|a t IH]; intros Hnd Hin; [by inversion Hin|].
  simpl in Hnd. apply NoDup_cons in Hnd as [Hnin Hnd].
  assert (Hfilt : r_id a ∉ map r_id (filter (λ r, r_relevant r = true) t)).
  { intros Hx. apply Hnin. apply list_elem_of_fmap in Hx as (x & -> & Hx).
    apply list_elem_of_filter in Hx as [_ Hx].
    apply list_elem_of_fmap. by exists x. }
  apply elem_of_cons in Hin as [->|Hin].
  - destruct (r_relevant a) eqn:Hrel; simpl.
    + rewrite filter_cons_True by done. simpl.
      rewrite bool_decide_eq_true_2 by done. simpl.
      destruct (needs_write a); [done|]. by apply write_for_absent.
    + rewrite filter_cons_False by congruence. by apply write_for_absent.
  - assert (Hne : r_id a ≠ r_id r).
    { intros Heq. apply Hnin. rewrite Heq. apply list_elem_of_fmap. by exists r. }
    destruct (r_relevant a) eqn:Hrel.
    + rewrite filter_cons_True by done. simpl.
      rewrite bool_decide_eq_false_2 by done. simpl. by apply IH.
    + rewrite filter_cons_False by congruence. by apply IH.
Qed.

Lemma NoDup_ids_filter (P : ResearchRow → Prop) `{!∀ r, Decision (P r)}
    (table : list ResearchRow) :
  NoDup (map r_id table) → NoDup (map r_id (filter P table)).
Proof.
  induction table as [|a t IH]; [done|]. intros Hnd.
  change (map r_id (a :: t)) with (r_id a :: map r_id t) in Hnd.
  apply NoDup_cons in Hnd as [Hnin Hnd].
  destruct (decide (P a)) as [HP|HP].
  - rewrite filter_cons_True by done.
    change (NoDup (r_id a :: map r_id (filter P t))).
    apply NoDup_cons. split; [|by apply IH].
    intros Hx. apply Hnin. apply list_elem_of_fmap in Hx as (x & -> & Hx).
    apply list_elem_of_filter in Hx as [_ Hx].
    apply list_elem_of_fmap. by exists x.
  - rewrite filter_cons_False by done. by apply IH.
Qed.

(** With distinct ids, one run settles every relevant row and leaves the
    others as they are. *)
Lemma update_research_topics_table (table : list ResearchRow) :
  NoDup (map r_id table) →
  table_after (update_research_topics table) =
  map (λ r, if r_relevant r then settle r else r) table.
Proof.
  intros Hnd. unfold update_research_topics. rewrite tag_loop_table.
  - apply map_ext_in. intros r Hin. apply list_elem_of_In in Hin.
    rewrite write_for_own by done. unfold settle.
    by destruct (r_relevant r), (needs_write r).
  - by apply NoDup_ids_filter.
Qed.



Lemma settle_relevant (r : ResearchRow) : r_relevant (settle r) = r_relevant r.
Proof. unfold settle. by destruct (needs_write r). Qed.

Lemma settle_settle (r : ResearchRow) : settle (settle r) = settle r.
Proof. unfold settle at 1. by rewrite needs_write_settle. Qed.

Lemma settled_rows (table : list ResearchRow) :
  filter (λ r, r_relevant r = true)
    (map (λ r, if r_relevant r then settle r else r) table) =
  map settle (filter (λ r, r_relevant r = true) table).
Proof.
  induction table as [|a t IH]; [done|]. cbn [map].
  destruct (r_relevant a) eqn:Hrel.
  - rewrite !filter_cons_True by (by rewrite ?settle_relevant).
    cbn [map]. by rewrite IH.
  - rewrite !filter_cons_False by congruence. exact IH.
Qed.

(** C6. Tagging idempotence: on a table whose ids are distinct, a second run
    of the tagger right after a first one sends no update and leaves the
    table, hence every [topics] and [processed], as the first run left it; it
    also returns the same rows. *)
Theorem tagging_idempotent (table : list ResearchRow) :
  NoDup (map r_id table) →
  let first := update_research_topics table in
  let second := update_research_topics (table_after first) in
  writes second = [] ∧
  table_after second = table_after first ∧
  updated_rows second = updated_rows first.
Proof.
  intros Hnd first second. subst first second.
  rewrite (update_research_topics_table table Hnd).
  unfold update_research_topics at 1 2 3.
  destruct (tag_loop_spec
    (filter (λ r, r_relevant r = true)
       (map (λ r, if r_relevant r then settle r else r) table))
    (map (λ r, if r_relevant r then settle r else r) table)) as (Hws & Hup & Ht).
  assert (Hnone : writes (tag_loop
    (filter (λ r, r_relevant r = true)
       (map (λ r, if r_relevant r then settle r else r) table))
    (map (λ r, if r_relevant r then settle r else r) table)) = []).
  { rewrite Hws, settled_rows. rewrite filter_nil_forall; [done|].
    intros x Hx. apply list_elem_of_fmap in Hx as (r & -> & _).
    by rewrite needs_write_settle. }
  split; [exact Hnone|]. split.
  - by rewrite Ht, Hnone.
  - rewrite Hup, settled_rows. unfold update_research_topics.
    destruct (tag_loop_spec (filter (λ r, r_relevant r = true) table) table)
      as (_ & Hup1 & _).
    rewrite Hup1, map_map. apply map_ext. intros r. apply settle_settle.
Qed.

Lemma tagging_idempotent_witness :
  NoDup (map r_id research_table) ∧
  writes (update_research_topics
            (table_after (update_research_topics research_table))) = [] ∧
  writes (update_research_topics research_table) = [(7, ["hrt_strength"])].
Proof.
  split; [apply (bool_decide_unpack _); vm_compute; exact I|].
  split; [|by vm_compute].
  apply (tagging_idempotent research_table).
  apply (bool_decide_unpack _). vm_compute. exact I.
Defined.

(** ** The orchestrator *)

Lemma built_context_not_blank (rows : list ResearchRow) (topics : list string)
    (max : Z) (c : string) (d : list string) :
  build_research_context_for_topics rows topics max = (c, d) →
  str_truthy c = true → strip_is_empty c = false.
Proof.
  unfold build_research_context_for_topics.
  destruct topics as [|t ts]; [by intros [= <- <-]|].
  destruct (scan rows (t :: ts) max []) as [|r rs]; [by intros [= <- <-]|].
  intros [= <- <-] _. cbn [map].
  destruct (map render_line rs); reflexivity.
Qed.

(** The iteration from the generator call on. *)
Lemma loop_body_generating (W : World) (rows : list ResearchRow)
    (population context : string) (ex : Exercise) (pc : Z) (st : State)
    (c : string) (d : list string) :
  generating rows population context ex st c d →
  loop_body W rows population context ex pc st =
  match chat_completions_create W (api_calls st) ex c d with
  | ApiRaises | ApiContent None =>
      Next pc (print (Error_generating_tips (ex_id ex)) (count_api_call st))
  | ApiContent (Some tips) =>
      if json_truthy tips then
        match insert_tip W (tip_record population context ex tips d)
                (count_api_call st) with
        | (None, st') => Raised st'
        | (Some _, st') => Next (pc + 1) (print (Inserted_tips (ex_id ex)) st')
        end
      else Next pc (print (No_tips_generated (ex_id ex)) (count_api_call st))
  end.
Proof.
  intros (Hnew & Htopics & Hbuild & Htruthy).
  pose proof (built_context_not_blank _ _ _ _ _ Hbuild Htruthy) as Hblank.
  unfold loop_body. rewrite Hnew.
  destruct (infer_topics_for_exercise ex) as [|t ts] eqn:Hinf; [done|].
  rewrite Hbuild, Htruthy. cbn [negb].
  unfold generate_tips_json_for_exercise. rewrite Hblank.
  destruct (chat_completions_create W (api_calls st) ex c d)
    as [|[tips|]]; try done.
  by destruct (json_truthy tips).
Qed.

Lemma main_loop_next (W : World) (max : option Z) (rows : list ResearchRow)
    (population context : string) (ex : Exercise) (rest : list Exercise)
    (pc pc' : Z) (st st' : State) :
  limit_reached max pc = false →
  loop_body W rows population context ex pc st = Next pc' st' →
  main_loop W max rows population context (ex :: rest) pc st =
  main_loop W max rows population context rest pc' st'.
Proof. intros Hlim Hbody. cbn [main_loop]. by rewrite Hlim, Hbody. Qed.

Lemma main_loop_raised (W : World) (max : option Z) (rows : list ResearchRow)
    (population context : string) (ex : Exercise) (rest : list Exercise)
    (pc : Z) (st st' : State) :
  limit_reached max pc = false →
  loop_body W rows population context ex pc st = Raised st' →
  main_loop W max rows population context (ex :: rest) pc st = Aborted st'.
Proof. intros Hlim Hbody. cbn [main_loop]. by rewrite Hlim, Hbody. Qed.

Lemma loop_body_spec (W : World) (rows : list ResearchRow)
    (population context : string) (ex : Exercise) (pc : Z) (st : State) :
  step_spec population context ex pc st
    (loop_body W rows population context ex pc st).
Proof.
  unfold loop_body.
  destruct (exercise_already_has_tips _ _ _ _) eqn:Hnew.
  { by eapply step_skipped; simpl; try lia. }
  destruct (infer_topics_for_exercise ex) as [|t ts].
  { by eapply step_skipped; simpl; try lia. }
  destruct (build_research_context_for_topics _ _ _) as [c d].
  destruct (str_truthy c); cbn [negb].
  2: { by eapply step_skipped; simpl; try lia. }
  unfold generate_tips_json_for_exercise.
  destruct (strip_is_empty c).
  { by eapply step_skipped; simpl; try lia. }
  destruct (chat_completions_create W (api_calls st) ex c d) as [|[tips|]].
  { by eapply step_skipped; simpl; try lia. }
  2: { by eapply step_skipped; simpl; try lia. }
  destruct (json_truthy tips); cbn [negb].
  2: { by eapply step_skipped; simpl; try lia. }
  unfold insert_tip. cbn [count_api_call api_calls insert_calls].
  destruct (insert_succeeds W (insert_calls st) _).
  - by apply step_persisted
      with (rec := tip_record population context ex tips d).
  - by eapply step_raised.
Qed.

Lemma already_has_tips_count (tips : list TipRecord) (id : Z) (p c : string) :
  exercise_already_has_tips tips id p c = false ↔ count_tips tips id p c = 0%nat.
Proof.
  unfold exercise_already_has_tips, count_tips.
  rewrite bool_decide_eq_false. lia.
Qed.

Lemma count_tips_app (tips : list TipRecord) (rec : TipRecord)
    (id : Z) (p c : string) :
  count_tips (tips ++ [rec]) id p c =
  (count_tips tips id p c +
   if decide (t_exercise_id rec = id ∧ t_population rec = p ∧ t_context rec = c)
   then 1 else 0)%nat.
Proof.
  unfold count_tips. rewrite filter_app, length_app. f_equal.
  rewrite filter_cons, filter_nil. by case_decide.
Qed.

(** One iteration keeps every key at one tip at most. *)
Lemma step_at_most_one (population context : string) (ex : Exercise) (pc : Z)
    (st : State) (r : step_result) (id : Z) (p c : string) :
  step_spec population context ex pc st r →
  (count_tips (exercise_trans_tips st) id p c ≤ 1)%nat →
  (count_tips (exercise_trans_tips (step_state r)) id p c ≤ 1)%nat.
Proof.
  intros Hstep Hone.
  destruct Hstep as [line st' Ht|rec st' Hnew Hid Hp Hc _ Ht|st' Ht];
    cbn [step_state]; rewrite Ht; [done| |done].
  rewrite count_tips_app. case_decide as Hkey; [|lia].
  destruct Hkey as (? & ? & ?). apply already_has_tips_count in Hnew.
  replace (count_tips (exercise_trans_tips st) id p c) with 0%nat; [lia|].
  rewrite <- Hnew. f_equal; congruence.
Qed.

Lemma main_loop_at_most_one (W : World) (max : option Z)
    (rows : list ResearchRow) (population context : string)
    (exercises : list Exercise) (id : Z) (p c : string) :
  ∀ (pc : Z) (st : State),
    (count_tips (exercise_trans_tips st) id p c ≤ 1)%nat →
    (count_tips (exercise_trans_tips (final_state
       (main_loop W max rows population context exercises pc st))) id p c
     ≤ 1)%nat.
Proof.
  induction exercises as [|ex rest IH]; intros pc st Hone; cbn [main_loop];
    [done|].
  destruct (limit_reached max pc); [done|].
  pose proof (step_at_most_one population context ex pc st _ id p c
                (loop_body_spec W rows population context ex pc st) Hone) as H1.
  destruct (loop_body W rows population context ex pc st) as [pc' st'|st'];
    cbn [step_state] in H1; [by apply IH|done].
Qed.

(** C2. At-most-one tip: whatever runs of [main] follow one another, a key
    (exercise id, population, context) with at most one tip before them has
    at most one after them; and an iteration whose existence check finds a
    tip only prints the skip line: it calls neither the generator nor the
    insert and leaves the tip table and the counter as they are. *)
Theorem at_most_one_tip (runs : list Run) (tips : list TipRecord) (id : Z)
    (population context : string) :
  (count_tips tips id population context ≤ 1)%nat →
  (count_tips (run_all tips runs) id population context ≤ 1)%nat ∧
  (∀ W rows p c ex pc st,
      exercise_already_has_tips (exercise_trans_tips st) (ex_id ex) p c = true →
      loop_body W rows p c ex pc st =
      Next pc (print (Skipping_existing_tips (ex_id ex)) st)).
Proof.
  intros Hone. split.
  - revert tips Hone. induction runs as [|r runs IH]; intros tips Hone; [done|].
    cbn [run_all foldl]. apply IH. unfold run_main, main_with. cbn [snd].
    by apply main_loop_at_most_one.
  - intros W rows p c ex pc st Hhas. unfold loop_body. by rewrite Hhas.
Qed.

Lemma at_most_one_tip_witness :
  (count_tips [] 1 "general" "general" ≤ 1)%nat ∧
  (count_tips (run_all [] [demo_run; demo_run]) 1 "general" "general" ≤ 1)%nat ∧
  count_tips (run_all [] [demo_run; demo_run]) 1 "general" "general" = 1%nat.
Proof.
  split; [vm_compute; lia|]. split; [|by vm_compute].
  apply (at_most_one_tip [demo_run; demo_run] [] 1 "general" "general").
  vm_compute. lia.
Defined.

(** Scenario D: the second run over the same exercise skips it. *)
Example second_run_skips :
  (main_with MAX_EXERCISES (answers malformed_tips)
     {| transfit_research := [scenario_B]; exercises_table := [scenario_A];
        staging_exercisedb := []; tips_table := run_all [] [demo_run] |}).2
  = Done 0 {| exercise_trans_tips := run_all [] [demo_run];
              api_calls := 0; insert_calls := 0;
              stdout := [Skipping_existing_tips 1] |}.
Proof. vm_compute. reflexivity. Qed.

(** A non-empty object without [disclaimer] is inserted and counted. *)
Lemma malformed_object_is_persisted :
  ¬ missing_key_is_gen_error (answers malformed_tips) demo_db malformed_tips.
Proof.
  intros Hclaim. destruct Hclaim as (st & Hrun & _); [done|by vm_compute|].
  vm_compute in Hrun. discriminate.
Qed.

Example malformed_run :
  (main (answers malformed_tips) demo_db).2 =
  Done 1 {| exercise_trans_tips :=
              [tip_record "general" "general" scenario_A malformed_tips []];
            api_calls := 1; insert_calls := 1;
            stdout := [Inserted_tips 1] |}.
Proof. vm_compute. reflexivity. Qed.

(** C1, as the code has it. Once an iteration reaches the generator call,
    it ends on a skip after the call (no tip written, counter unchanged,
    the loop going on with the next exercise) exactly when the call raised,
    its content did not parse, or the parsed value is falsy (an empty
    object). A truthy parsed value goes to the insert whatever keys it has:
    stored, it is counted. *)
Theorem gen_error_iff_raises_or_falsy (W : World) (max : option Z)
    (rows : list ResearchRow) (ex : Exercise) (rest : list Exercise)
    (pc : Z) (st : State) (c : string) (d : list string) :
  generating rows "general" "general" ex st c d →
  limit_reached max pc = false →
  let response := chat_completions_create W (api_calls st) ex c d in
  let result := loop_body W rows "general" "general" ex pc st in
  (skipped_after_call ex pc st result ↔ generation_failed response) ∧
  (skipped_after_call ex pc st result →
     exercise_trans_tips (step_state result) = exercise_trans_tips st ∧
     main_loop W max rows "general" "general" (ex :: rest) pc st =
     main_loop W max rows "general" "general" rest pc (step_state result)) ∧
  (∀ tips, response = ApiContent (Some tips) → json_truthy tips = true →
     result =
     match insert_tip W (tip_record "general" "general" ex tips d)
             (count_api_call st) with
     | (None, st') => Raised st'
     | (Some _, st') => Next (pc + 1) (print (Inserted_tips (ex_id ex)) st')
     end).
Proof.
  intros Hgen Hlim response result. subst response result.
  pose proof (loop_body_generating W rows _ _ ex pc st c d Hgen) as Hbody.
  rewrite Hbody. unfold skipped_after_call, generation_failed.
  destruct (chat_completions_create W (api_calls st) ex c d) as [|[tips|]].
  - split; [split; [done|by left]|]. split; [|done].
    intros _. split; [done|]. by apply main_loop_next.
  - destruct (json_truthy tips) eqn:Htruthy.
    + assert (Hno : ¬ skipped_after_call ex pc st
        match insert_tip W (tip_record "general" "general" ex tips d)
                (count_api_call st) with
        | (None, st') => Raised st'
        | (Some _, st') => Next (pc + 1) (print (Inserted_tips (ex_id ex)) st')
        end).
      { unfold skipped_after_call.
        destruct (insert_tip _ _ _) as [[[]|] st']; intros [H|H];
          try discriminate; injection H; lia. }
      split; [split; [by intros ?%Hno|done]|].
      split; [by intros ?%Hno|]. by intros ? [= <-] _.
    + split; [split; [done|by right]|].
      split; [|intros ? [= <-]; congruence].
      intros _. split; [done|]. by apply main_loop_next.
  - split; [split; [done|by left]|]. split; [|done].
    intros _. split; [done|]. by apply main_loop_next.
Qed.

Lemma demo_generating :
  generating [evidence_row] "general" "general" scenario_A (fresh [])
    demo_context.1 demo_context.2.
Proof. repeat split; by vm_compute. Defined.

Lemma gen_error_iff_raises_or_falsy_witness :
  generating [evidence_row] "general" "general" scenario_A (fresh [])
    demo_context.1 demo_context.2 ∧
  limit_reached MAX_EXERCISES 0 = false ∧
  (skipped_after_call scenario_A 0 (fresh [])
     (loop_body (answers (JObj [])) [evidence_row] "general" "general"
        scenario_A 0 (fresh [])) ↔
   generation_failed (ApiContent (Some (JObj [])))).
Proof.
  split; [exact demo_generating|]. split; [reflexivity|].
  exact (proj1 (gen_error_iff_raises_or_falsy (answers (JObj []))
                  MAX_EXERCISES [evidence_row] scenario_A [] 0 (fresh [])
                  demo_context.1 demo_context.2 demo_generating eq_refl)).
Defined.

(** Every call and every printed line belongs to one exercise of the list:
    no exercise is gone through twice. *)
Lemma main_loop_calls (W : World) (max : option Z) (rows : list ResearchRow)
    (population context : string) (exercises : list Exercise) :
  ∀ (pc : Z) (st : State),
    let final := final_state
      (main_loop W max rows population context exercises pc st) in
    (api_calls final ≤ api_calls st + length exercises)%nat ∧
    (insert_calls final ≤ insert_calls st + length exercises)%nat ∧
    (length (stdout final) ≤ length (stdout st) + length exercises)%nat.
Proof.
  induction exercises as [|ex rest IH]; intros pc st; cbn [main_loop];
    [cbn; lia|].
  destruct (limit_reached max pc); [cbn; lia|].
  pose proof (loop_body_spec W rows population context ex pc st) as Hstep.
  destruct Hstep as [line st' Ht Ha Hi Ho|rec st' _ _ _ _ _ Ht Ha Hi Ho
                    |st' Ht Ha Hi Ho].
  - specialize (IH pc st'). cbn zeta in IH. rewrite Hi, Ho, length_app in IH.
    cbn [length] in *. lia.
  - specialize (IH (pc + 1) st'). cbn zeta in IH.
    rewrite Ha, Hi, Ho, length_app in IH. cbn [length] in *. lia.
  - cbn [final_state length]. rewrite Ha, Hi, Ho. lia.
Qed.

(** C5. When the generator call raises, the loop goes on with the rest of
    the list from a state with the same tip table and the same counter; when
    the insert fails, [main] ends on the exception whatever exercises remain,
    nothing having been stored or printed for this one; and no exercise gets
    a second generator call or a second insert: the calls of a whole loop
    number at most the exercises of the list. *)
Theorem generator_error_skips_insert_error_aborts (W : World)
    (max : option Z) (rows : list ResearchRow) (ex : Exercise)
    (rest : list Exercise) (pc : Z) (st : State) (c : string)
    (d : list string) :
  generating rows "general" "general" ex st c d →
  limit_reached max pc = false →
  let response := chat_completions_create W (api_calls st) ex c d in
  let skipped := print (Error_generating_tips (ex_id ex)) (count_api_call st) in
  (response = ApiRaises →
     exercise_trans_tips skipped = exercise_trans_tips st ∧
     main_loop W max rows "general" "general" (ex :: rest) pc st =
     main_loop W max rows "general" "general" rest pc skipped) ∧
  (∀ tips, response = ApiContent (Some tips) → json_truthy tips = true →
     insert_succeeds W (insert_calls st)
       (tip_record "general" "general" ex tips d) = false →
     ∃ st', main_loop W max rows "general" "general" (ex :: rest) pc st
            = Aborted st' ∧
            exercise_trans_tips st' = exercise_trans_tips st ∧
            stdout st' = stdout st) ∧
  (∀ (exercises : list Exercise) (pc0 : Z) (st0 : State),
     let final := final_state
       (main_loop W max rows "general" "general" exercises pc0 st0) in
     (api_calls final ≤ api_calls st0 + length exercises)%nat ∧
     (insert_calls final ≤ insert_calls st0 + length exercises)%nat ∧
     (length (stdout final) ≤ length (stdout st0) + length exercises)%nat).
Proof.
  intros Hgen Hlim response skipped. subst response skipped.
  pose proof (loop_body_generating W rows _ _ ex pc st c d Hgen) as Hbody.
  split; [|split].
  - intros Hresp. rewrite Hresp in Hbody. split; [done|].
    by apply main_loop_next.
  - intros tips Hresp Htruthy Hfail. rewrite Hresp, Htruthy in Hbody.
    unfold insert_tip in Hbody.
    cbn [count_api_call insert_calls] in Hbody. rewrite Hfail in Hbody.
    eexists. split; [by apply main_loop_raised|]. done.
  - intros exercises pc0 st0. apply main_loop_calls.
Qed.

Lemma generator_error_skips_insert_error_aborts_witness :
  generating [evidence_row] "general" "general" scenario_A (fresh [])
    demo_context.1 demo_context.2 ∧
  limit_reached MAX_EXERCISES 0 = false ∧
  main_loop raising MAX_EXERCISES [evidence_row] "general" "general"
    [scenario_A; idle_exercise 2] 0 (fresh []) =
  main_loop raising MAX_EXERCISES [evidence_row] "general" "general"
    [idle_exercise 2] 0
    (print (Error_generating_tips 1) (count_api_call (fresh []))).
Proof.
  split; [exact demo_generating|]. split; [reflexivity|].
  exact (proj2 (proj1 (generator_error_skips_insert_error_aborts raising
                  MAX_EXERCISES [evidence_row] scenario_A [idle_exercise 2] 0
                  (fresh []) demo_context.1 demo_context.2
                  demo_generating eq_refl) eq_refl)).
Defined.

Example raising_run :
  main_loop raising MAX_EXERCISES [evidence_row] "general" "general"
    [scenario_A; idle_exercise 2] 0 (fresh []) =
  Done 0 {| exercise_trans_tips := []; api_calls := 1; insert_calls := 0;
            stdout := [Error_generating_tips 1; No_topics_inferred 2] |}.
Proof. vm_compute. reflexivity. Qed.

Example rejecting_run :
  main_loop (rejecting malformed_tips) MAX_EXERCISES [evidence_row]
    "general" "general" [scenario_A; idle_exercise 2] 0 (fresh []) =
  Aborted {| exercise_trans_tips := []; api_calls := 1; insert_calls := 1;
             stdout := [] |}.
Proof. vm_compute. reflexivity. Qed.

(** Twenty-six exercises, none with a topic: all are gone through although
    the limit is 25, since only inserted tips count toward it. *)
Lemma skipped_exercises_exceed_limit :
  ¬ visits_within_limit 25 raising idle_db.
Proof. unfold visits_within_limit. vm_compute. intros H. by apply H. Qed.

Example idle_run_visits :
  visited (main raising idle_db).2 = 26 ∧
  ∃ st, (main raising idle_db).2 = Done 0 st.
Proof. split; [by vm_compute|]. eexists. vm_compute. reflexivity. Qed.

Lemma loop_body_cases (W : World) (rows : list ResearchRow)
    (p c : string) (ex : Exercise) (pc : Z) (st : State) :
  (∃ line st',
     loop_body W rows p c ex pc st = Next pc st' ∧
     exercise_trans_tips st' = exercise_trans_tips st ∧
     insert_calls st' = insert_calls st ∧
     (api_calls st ≤ api_calls st' ≤ S (api_calls st))%nat ∧
     stdout st' = stdout st ++ [line] ∧
     line_id line = ex_id ex ∧ is_inserted line = false) ∨
  (∃ tips st',
     loop_body W rows p c ex pc st = Next (pc + 1) st' ∧
     exercise_already_has_tips (exercise_trans_tips st) (ex_id ex) p c = false ∧
     infer_topics_for_exercise ex ≠ [] ∧ json_truthy tips = true ∧
     exercise_trans_tips st' = exercise_trans_tips st ++
       [tip_record p c ex tips
          (build_research_context_for_topics rows
             (infer_topics_for_exercise ex) default_max_articles).2] ∧
     insert_calls st' = S (insert_calls st) ∧
     api_calls st' = S (api_calls st) ∧
     stdout st' = stdout st ++ [Inserted_tips (ex_id ex)]) ∨
  (∃ st',
     loop_body W rows p c ex pc st = Raised st' ∧
     exercise_trans_tips st' = exercise_trans_tips st ∧
     insert_calls st' = S (insert_calls st) ∧
     api_calls st' = S (api_calls st) ∧
     stdout st' = stdout st).
Proof.
  unfold loop_body.
  destruct (exercise_already_has_tips _ _ _ _) eqn:Hnew.
  { left. do 2 eexists. repeat split; cbn; try done; lia. }
  destruct (infer_topics_for_exercise ex) as [|t ts] eqn:Htopics.
  { left. do 2 eexists. repeat split; cbn; try done; lia. }
  destruct (build_research_context_for_topics _ _ _) as [ctx d].
  destruct (str_truthy ctx); cbn [negb].
  2: { left. do 2 eexists. repeat split; cbn; try done; lia. }
  unfold generate_tips_json_for_exercise.
  destruct (strip_is_empty ctx).
  { left. do 2 eexists. repeat split; cbn; try done; lia. }
  destruct (chat_completions_create W (api_calls st) ex ctx d) as [|[tips|]].
  { left. do 2 eexists. repeat split; cbn; try done; lia. }
  2: { left. do 2 eexists. repeat split; cbn; try done; lia. }
  destruct (json_truthy tips) eqn:Htips; cbn [negb].
  2: { left. do 2 eexists. repeat split; cbn; try done; lia. }
  unfold insert_tip. cbn [count_api_call api_calls insert_calls].
  destruct (insert_succeeds W (insert_calls st) _).
  - right; left. exists tips. eexists. by repeat split.
  - right; right. eexists. by repeat split.
Qed.

Lemma written_for_mono (rows : list ResearchRow) (p c : string)
    (exercises exercises' : list Exercise) (rec : TipRecord) :
  (∀ ex, ex ∈ exercises → ex ∈ exercises') →
  written_for rows p c exercises rec → written_for rows p c exercises' rec.
Proof. intros Hsub (ex & Hex & H). exists ex. split; [by apply Hsub|done]. Qed.

(** What a run of the loop adds to the state: [n] exercises met, the lines
    they printed and the tips stored for them. *)
Lemma main_loop_trace (W : World) (max : option Z) (rows : list ResearchRow)
    (p c : string) (exercises : list Exercise) :
  ∀ (pc : Z) (st : State),
    ∃ (n : nat) (added : list TipRecord) (lines : list Line),
      let r := main_loop W max rows p c exercises pc st in
      (n ≤ length exercises)%nat ∧
      exercise_trans_tips (final_state r) = exercise_trans_tips st ++ added ∧
      stdout (final_state r) = stdout st ++ lines ∧
      map line_id lines = map ex_id (take n exercises) ∧
      map t_exercise_id added =
        map line_id (filter (λ l, is_inserted l = true) lines) ∧
      Forall (written_for rows p c (take n exercises)) added ∧
      (api_calls st ≤ api_calls (final_state r))%nat ∧
      (insert_calls (final_state r) + api_calls st ≤
       api_calls (final_state r) + insert_calls st)%nat ∧
      match r with
      | Done pc' st' =>
          pc' = pc + Z.of_nat (length added) ∧
          insert_calls st' = (insert_calls st + length added)%nat ∧
          (n = length exercises ∨ limit_reached max pc' = true)
      | Aborted st' =>
          insert_calls st' = S (insert_calls st + length added) ∧
          (n < length exercises)%nat
      end.
Proof.
  induction exercises as [|ex rest IH]; intros pc st; cbn [main_loop].
  { exists 0%nat, [], []. cbn. rewrite !app_nil_r.
    repeat split; try done; try lia; by left. }
  destruct (limit_reached max pc) eqn:Hlim.
  { exists 0%nat, [], []. cbn. rewrite !app_nil_r.
    repeat split; try done; try lia; by right. }
  destruct (loop_body_cases W rows p c ex pc st)
    as [(line & st1 & -> & Ht & Hi & Ha & Ho & Hid & Hins)
       |[(tips & st1 & -> & Hnew & Htop & Htips & Ht & Hi & Ha & Ho)
        |(st1 & -> & Ht & Hi & Ha & Ho)]].
  - destruct (IH pc st1)
      as (n & added & lines & Hn & Ht' & Ho' & Hids & Hadd & Hw & Ha1 & Ha2 & Hr).
    exists (S n), added, (line :: lines). cbn zeta in *.
    rewrite Ht', Ho', Ht, Ho, <- app_assoc. cbn [app take map length].
    split; [lia|]. split; [done|]. split; [done|].
    split; [by rewrite Hid, Hids|].
    split; [by rewrite filter_cons_False by (by rewrite Hins)|].
    split.
    { eapply Forall_impl; [exact Hw|]. intros rec. apply written_for_mono.
      intros e He. by right. }
    split; [lia|]. split; [lia|].
    destruct (main_loop W max rows p c rest pc st1) as [pc' st'|st'].
    + destruct Hr as (Hpc & Hic & Hend). split; [done|]. split; [lia|].
      destruct Hend as [-> | Hend]; [by left|by right].
    + destruct Hr as (Hic & Hlt). split; lia.
  - destruct (IH (pc + 1) st1)
      as (n & added & lines & Hn & Ht' & Ho' & Hids & Hadd & Hw & Ha1 & Ha2 & Hr).
    exists (S n),
      (tip_record p c ex tips
         (build_research_context_for_topics rows
            (infer_topics_for_exercise ex) default_max_articles).2 :: added),
      (Inserted_tips (ex_id ex) :: lines). cbn zeta in *.
    rewrite Ht', Ho', Ht, Ho, <- !app_assoc. cbn [app take map length].
    split; [lia|]. split; [done|]. split; [done|].
    split; [by rewrite Hids|].
    split; [rewrite filter_cons_True by done; cbn; by rewrite Hadd|].
    split.
    { constructor.
      - exists ex. split; [left|]. by repeat split.
      - eapply Forall_impl; [exact Hw|]. intros rec. apply written_for_mono.
        intros e He. by right. }
    split; [lia|]. split; [lia|].
    destruct (main_loop W max rows p c rest (pc + 1) st1) as [pc' st'|st'].
    + destruct Hr as (Hpc & Hic & Hend). split; [lia|]. split; [lia|].
      destruct Hend as [-> | Hend]; [by left|by right].
    + destruct Hr as (Hic & Hlt). split; lia.
  - exists 0%nat, [], []. cbn. rewrite !app_nil_r, Ht, Ho.
    repeat split; try done; lia.
Qed.

(** Once the limit is reached the loop ends where it is. *)
Lemma main_loop_limit (W : World) (max : option Z) (rows : list ResearchRow)
    (p c : string) (exercises : list Exercise) (pc : Z) (st : State) :
  limit_reached max pc = true →
  main_loop W max rows p c exercises pc st = Done pc st.
Proof. intros Hlim. destruct exercises; cbn [main_loop]; by rewrite ?Hlim. Qed.

(** The loop over a list is the loop over its first part, carried on over
    the rest unless an insert raised. *)
Lemma main_loop_app (W : World) (max : option Z) (rows : list ResearchRow)
    (p c : string) (seen rest : list Exercise) :
  ∀ (pc : Z) (st : State),
    main_loop W max rows p c (seen ++ rest) pc st =
    match main_loop W max rows p c seen pc st with
    | Done pc' st' => main_loop W max rows p c rest pc' st'
    | Aborted st' => Aborted st'
    end.
Proof.
  induction seen as [|ex seen IH]; intros pc st; [done|].
  cbn [app main_loop]. destruct (limit_reached max pc) eqn:Hlim.
  { by rewrite main_loop_limit. }
  destruct (loop_body W rows p c ex pc st) as [pc' st'|st']; [apply IH|done].
Qed.

(** From a counter within the limit, the loop ends with the counter within
    the limit, and the tips it added are as many as the counter grew. *)
Lemma main_loop_persisted (W : World) (m : Z) (rows : list ResearchRow)
    (population context : string) (exercises : list Exercise) :
  ∀ (pc : Z) (st : State),
    pc ≤ m →
    match main_loop W (Some m) rows population context exercises pc st with
    | Done pc' st' =>
        pc ≤ pc' ≤ m ∧
        Z.of_nat (length (exercise_trans_tips st')) =
        Z.of_nat (length (exercise_trans_tips st)) + (pc' - pc)
    | Aborted st' =>
        ∃ pc', pc ≤ pc' < m ∧
        Z.of_nat (length (exercise_trans_tips st')) =
        Z.of_nat (length (exercise_trans_tips st)) + (pc' - pc)
    end.
Proof.
  induction exercises as [|ex rest IH]; intros pc st Hle; cbn [main_loop];
    [lia|].
  unfold limit_reached. case_bool_decide as Hlim; [lia|].
  pose proof (loop_body_spec W rows population context ex pc st) as Hstep.
  destruct Hstep as [line st' Ht|rec st' _ _ _ _ _ Ht|st' Ht].
  - specialize (IH pc st' Hle). rewrite Ht in IH. exact IH.
  - specialize (IH (pc + 1) st' ltac:(lia)).
    rewrite Ht, length_app in IH. cbn [length] in IH.
    destruct (main_loop W (Some m) rows population context rest (pc + 1) st')
      as [pc' st''|st''].
    + lia.
    + destruct IH as (pc' & ? & ?). exists pc'. lia.
  - exists pc. rewrite Ht. lia.
Qed.

(** C4, as the code has it. With a limit [m >= 0] set, a run persists at
    most [m] tips: it ends with a counter between 0 and [m] that is the
    number of tips it added, or on a failed insert having added fewer than
    [m]. The lines it printed are one for each of the first [n] exercises,
    in order, and if exercises are left over the counter is [m]. The loop
    stops before the next exercise once [m] have been persisted: if the loop
    over a first part of the exercises ends with the counter at [m], the run
    ends in that very state, with no further line, call, insert or tip,
    whatever exercises follow. Exercises that are skipped do not count
    toward the limit. *)
Theorem persisted_within_limit (m : Z) (W : World) (db : Db) :
  0 ≤ m →
  let rows := updated_rows (update_research_topics (transfit_research db)) in
  let exercises :=
    load_exercises (exercises_table db) (staging_exercisedb db) in
  match (main_with (Some m) W db).2 with
  | Done processed_count st =>
      0 ≤ processed_count ≤ m ∧
      Z.of_nat (length (exercise_trans_tips st)) =
      Z.of_nat (length (tips_table db)) + processed_count ∧
      ∃ n : nat,
        (n ≤ length exercises)%nat ∧
        map line_id (stdout st) = map ex_id (take n exercises) ∧
        (n = length exercises ∨ processed_count = m)
  | Aborted st =>
      Z.of_nat (length (exercise_trans_tips st)) <
      Z.of_nat (length (tips_table db)) + m
  end ∧
  ∀ (seen rest : list Exercise) (st : State),
    exercises = seen ++ rest →
    main_loop W (Some m) rows "general" "general" seen 0
      (fresh (tips_table db)) = Done m st →
    (main_with (Some m) W db).2 = Done m st.
Proof.
  intros Hm rows exercises. unfold main_with. cbn [snd].
  fold rows. fold exercises. split.
  - pose proof (main_loop_persisted W m rows "general" "general" exercises
                  0 (fresh (tips_table db)) Hm) as Hloop.
    destruct (main_loop_trace W (Some m) rows "general" "general" exercises
                0 (fresh (tips_table db)))
      as (n & added & lines & Hn & _ & Ho & Hids & _ & _ & _ & _ & Hr).
    cbn zeta in Hr, Ho.
    destruct (main_loop W (Some m) rows "general" "general" exercises 0
                (fresh (tips_table db))) as [pc st|st]; cbn in Hloop.
    + destruct Hloop as (Hpc & Hlen). split; [lia|]. split; [lia|].
      exists n. split; [done|]. cbn in Ho. rewrite Ho. split; [done|].
      destruct Hr as (_ & _ & [-> | Hlim]); [by left|right].
      unfold limit_reached in Hlim. apply bool_decide_eq_true in Hlim. lia.
    + destruct Hloop as (pc' & ? & ?). lia.
  - intros seen rest st -> Hseen.
    rewrite main_loop_app, Hseen. apply main_loop_limit.
    unfold limit_reached. by apply bool_decide_eq_true.
Qed.

Lemma persisted_within_limit_witness :
  0 ≤ 1 ∧
  (main_with (Some 1) (answers malformed_tips) two_squats_db).2 =
  Done 1 {| exercise_trans_tips :=
              [tip_record "general" "general" scenario_A malformed_tips []];
            api_calls := 1; insert_calls := 1;
            stdout := [Inserted_tips 1] |}.
Proof.
  assert (Hm : 0 ≤ 1) by lia.
  split; [exact Hm|].
  apply (proj2 (persisted_within_limit 1 (answers malformed_tips)
                  two_squats_db Hm)
           (load_exercises [scenario_A] []) (load_exercises [second_squat] [])).
  - vm_compute. reflexivity.
  - vm_compute. reflexivity.
Defined.

(** * Further properties *)

(** ** Tagging one article *)

Lemma sublist_map {A B} (f : A → B) (l k : list A) :
  l `sublist_of` k → map f l `sublist_of` map f k.
Proof.
  induction 1 as [|x l k _ IH|x l k _ IH]; cbn [map].
  - constructor.
  - by constructor.
  - by constructor.
Qed.

Lemma NoDup_topic_names : NoDup (TOPIC_KEYWORDS.*1).
Proof. apply (bool_decide_unpack _). vm_compute. exact I. Qed.

Lemma tag_topics_research_text (row : ResearchRow) :
  tag_topics_for_research_row row =
  (filter (λ tk : string * list string,
             existsb (λ k, str_in (lower k) (research_text row)) tk.2 = true)
          TOPIC_KEYWORDS).*1.
Proof. reflexivity. Qed.

Lemma tag_elem_keyword (row : ResearchRow) (t : string) :
  t ∈ tag_topics_for_research_row row ↔
  ∃ keywords k, (t, keywords) ∈ TOPIC_KEYWORDS ∧ k ∈ keywords ∧
                str_in (lower k) (research_text row) = true.
Proof.
  rewrite tag_topics_research_text. rewrite list_elem_of_fmap.
  split.
  - intros ([t' keywords] & -> & Hin).
    apply list_elem_of_filter in Hin as [Hhit Hin]. cbn [snd] in Hhit.
    apply existsb_exists in Hhit as (k & Hk & Hocc).
    exists keywords, k. cbn [fst]. split; [done|].
    split; [by apply list_elem_of_In|done].
  - intros (keywords & k & Hin & Hk & Hocc). exists (t, keywords).
    split; [done|]. apply list_elem_of_filter. split; [|done].
    cbn [snd]. apply existsb_exists. exists k.
    split; [by apply list_elem_of_In|done].
Qed.

(** X1. The tags of an article are topics of the keyword table, each at most
    once and in the order of the table; a topic is among them exactly when
    one of its keywords occurs in the lowercased text. *)
Theorem tags_follow_keyword_table (row : ResearchRow) :
  tag_topics_for_research_row row `sublist_of` TOPIC_KEYWORDS.*1 ∧
  NoDup (tag_topics_for_research_row row) ∧
  (∀ t, t ∈ tag_topics_for_research_row row → t ∈ vocabulary) ∧
  (∀ t, t ∈ tag_topics_for_research_row row ↔
        ∃ keywords k, (t, keywords) ∈ TOPIC_KEYWORDS ∧ k ∈ keywords ∧
                      str_in (lower k) (research_text row) = true).
Proof.
  assert (Hsub : tag_topics_for_research_row row `sublist_of` TOPIC_KEYWORDS.*1).
  { rewrite tag_topics_research_text. apply sublist_map, sublist_filter. }
  split; [exact Hsub|]. split; [|split].
  - eapply sublist_NoDup; [apply NoDup_topic_names|exact Hsub].
  - intros t Ht. unfold vocabulary. apply elem_of_list_to_set.
    eapply elem_of_sublist; [exact Ht|exact Hsub].
  - intros t. apply tag_elem_keyword.
Qed.

Lemma prefix_app_r (k s e : string) :
  String.prefix k s = true → String.prefix k (s +:+ e) = true.
Proof.
  revert k. induction s as [|c s IH]; intros k.
  - destruct k; [|done]. intros _. by destruct e.
  - destruct k as [|a k]; [done|]. simpl.
    destruct (Ascii.ascii_dec a c); [apply IH|done].
Qed.

Lemma str_in_app_r (k s e : string) :
  str_in k s = true → str_in k (s +:+ e) = true.
Proof.
  induction s as [|c s IH].
  - destruct k; [|done]. intros _. by destruct e.
  - change (String c s +:+ e) with (String c (s +:+ e)). cbn [str_in].
    rewrite !orb_true_iff. intros [Hp|Hin].
    + left. exact (prefix_app_r k (String c s) e Hp).
    + right. by apply IH.
Qed.

Lemma str_in_app_l (k e s : string) :
  str_in k s = true → str_in k (e +:+ s) = true.
Proof.
  intros Hin. induction e as [|c e IH]; [done|].
  change (String c e +:+ s) with (String c (e +:+ s)). cbn [str_in].
  rewrite IH. apply orb_true_r.
Qed.

(** X2. Tagging is monotone in the text: when the searched text of [b]
    contains that of [a] as a contiguous part, every tag of [a] is a tag of
    [b]. *)
Theorem more_text_keeps_tags (a b : ResearchRow) (before after : string) :
  research_text b = before +:+ research_text a +:+ after →
  ∀ t, t ∈ tag_topics_for_research_row a → t ∈ tag_topics_for_research_row b.
Proof.
  intros Htext t Ht.
  apply tag_elem_keyword in Ht as (keywords & k & Hin & Hk & Hocc).
  apply tag_elem_keyword. exists keywords, k. split; [done|]. split; [done|].
  rewrite Htext. by apply str_in_app_l, str_in_app_r.
Qed.

Lemma more_text_keeps_tags_witness :
  research_text long_row = "" +:+ research_text short_row +:+ " of testosterone" ∧
  "bone_health" ∈ tag_topics_for_research_row long_row.
Proof.
  assert (Htext : research_text long_row =
                  "" +:+ research_text short_row +:+ " of testosterone")
    by (by vm_compute).
  split; [exact Htext|].
  apply (more_text_keeps_tags short_row long_row _ _ Htext).
  apply (bool_decide_unpack _). vm_compute. exact I.
Defined.

(** ** The tagger and the research table *)

Lemma same_article_refl (a : ResearchRow) : same_article a a.
Proof. by repeat split. Qed.

Lemma same_article_trans (a b c : ResearchRow) :
  same_article a b → same_article b c → same_article a c.
Proof.
  unfold same_article. intros (?&?&?&?&?&?&?&?&?) (?&?&?&?&?&?&?&?&?).
  repeat split; try congruence. auto.
Qed.

Lemma same_article_set_topics (topics : list string) (a : ResearchRow) :
  same_article a (set_topics topics a).
Proof. by repeat split. Qed.

Lemma Forall2_map_related {A} (R : A → A → Prop) (f : A → A) (l : list A) :
  (∀ x, R x (f x)) → Forall2 R l (map f l).
Proof. intros Hf. induction l; cbn [map]; by constructor. Qed.

Lemma Forall2_same_article_trans (l k m : list ResearchRow) :
  Forall2 same_article l k → Forall2 same_article k m →
  Forall2 same_article l m.
Proof.
  intros Hlk. revert m. induction Hlk as [|a b l k Hab _ IH]; intros m Hkm.
  - by inversion Hkm.
  - inversion Hkm as [|? c ? m' Hbc Hkm']; subst. constructor.
    + by eapply same_article_trans.
    + by apply IH.
Qed.

Lemma research_update_same (id : Z) (topics : list string)
    (table : list ResearchRow) :
  Forall2 same_article table (research_update id topics table).
Proof.
  apply Forall2_map_related. intros r. case_bool_decide.
  - apply same_article_set_topics.
  - apply same_article_refl.
Qed.

Lemma replay_same (ws : list (Z * list string)) :
  ∀ table, Forall2 same_article table (replay table ws).
Proof.
  induction ws as [|w ws IH]; intros table; cbn [replay foldl].
  - induction table; constructor; [apply same_article_refl|done].
  - eapply Forall2_same_article_trans; [apply research_update_same|apply IH].
Qed.

Lemma settle_same (r : ResearchRow) : same_article r (settle r).
Proof.
  unfold settle. destruct (needs_write r).
  - apply same_article_set_topics.
  - apply same_article_refl.
Qed.

(** X3. The tagger only touches [topics] and [processed]: the table it leaves
    has the same articles in the same order, with every other column as
    before and [processed] never lowered; the list it returns is made of the
    relevant articles, in table order, under the same proviso. *)
Theorem tagger_keeps_articles (table : list ResearchRow) :
  let run := update_research_topics table in
  Forall2 same_article table (table_after run) ∧
  Forall2 same_article (filter (λ r, r_relevant r = true) table)
    (updated_rows run) ∧
  Forall (λ r, r_relevant r = true) (updated_rows run).
Proof.
  intros run. subst run. unfold update_research_topics.
  destruct (tag_loop_spec (filter (λ r, r_relevant r = true) table) table)
    as (_ & Hup & Ht).
  split; [|split].
  - rewrite Ht. apply replay_same.
  - rewrite Hup. apply Forall2_map_related, settle_same.
  - rewrite Hup. apply Forall_forall. intros x Hx.
    apply list_elem_of_fmap in Hx as (r & -> & Hr).
    apply list_elem_of_filter in Hr as [Hrel _].
    by rewrite settle_relevant.
Qed.

(** X4. With distinct ids, the rows the tagger hands on are what a fresh read
    of the relevant rows would give after the run, and the rows that are not
    relevant are left as they were. *)
Theorem returned_rows_match_storage (table : list ResearchRow) :
  NoDup (map r_id table) →
  let run := update_research_topics table in
  updated_rows run = filter (λ r, r_relevant r = true) (table_after run) ∧
  filter (λ r, r_relevant r ≠ true) (table_after run) =
  filter (λ r, r_relevant r ≠ true) table.
Proof.
  intros Hnd run. subst run.
  rewrite (update_research_topics_table table Hnd). split.
  - rewrite settled_rows. unfold update_research_topics.
    by destruct (tag_loop_spec (filter (λ r, r_relevant r = true) table) table)
      as (_ & -> & _).
  - clear Hnd. induction table as [|a t IH]; [done|]. cbn [map].
    destruct (r_relevant a) eqn:Hrel.
    + rewrite !filter_cons_False; [exact IH|by rewrite Hrel; auto|].
      rewrite settle_relevant, Hrel. auto.
    + rewrite !filter_cons_True by (by rewrite Hrel). by rewrite IH.
Qed.

Lemma returned_rows_match_storage_witness :
  NoDup (map r_id mixed_table) ∧
  updated_rows (update_research_topics mixed_table) =
  filter (λ r, r_relevant r = true)
    (table_after (update_research_topics mixed_table)).
Proof.
  assert (Hnd : NoDup (map r_id mixed_table))
    by (apply (bool_decide_unpack _); vm_compute; exact I).
  split; [exact Hnd|].
  exact (proj1 (returned_rows_match_storage mixed_table Hnd)).
Defined.

(** ** Loading the exercises *)

Lemma staging_by_slug_snoc (rows : list StagingRow) (r : StagingRow) :
  staging_by_slug (rows ++ [r]) =
  match s_slug r with
  | Some slug =>
      if str_truthy slug then <[slug := r]> (staging_by_slug rows)
      else staging_by_slug rows
  | None => staging_by_slug rows
  end.
Proof. unfold staging_by_slug. by rewrite foldl_snoc. Qed.

Lemma staging_by_slug_lookup (rows : list StagingRow) (slug : string) :
  staging_by_slug rows !! slug = staging_match rows slug.
Proof.
  unfold staging_match.
  induction rows as [|r rows IH] using rev_ind.
  { unfold staging_by_slug. cbn. rewrite lookup_empty. by destruct (str_truthy slug). }
  rewrite staging_by_slug_snoc, filter_app, filter_cons, filter_nil.
  destruct (s_slug r) as [k|] eqn:Hk.
  - destruct (str_truthy k) eqn:Htruthy.
    + destruct (decide (k = slug)) as [->|Hne].
      * rewrite lookup_insert_eq, Htruthy.
        rewrite decide_True by done. by rewrite last_snoc.
      * rewrite lookup_insert_ne by done. rewrite IH.
        rewrite decide_False by congruence. by rewrite app_nil_r.
    + rewrite IH. case_decide as Hsame; [|by rewrite app_nil_r].
      injection Hsame as ->. by rewrite Htruthy.
  - rewrite IH. rewrite decide_False by congruence. by rewrite app_nil_r.
Qed.

(** X5. [load_exercises] keeps the exercises, their order and the columns
    read from [exercises], and sets the three metadata keys of each from the
    last staging row that carries its slug; without such a row, and for an
    empty slug, the three keys are [None]. *)
Theorem load_exercises_joins_last_staging_row (exercises : list Exercise)
    (staging_rows : list StagingRow) :
  length (load_exercises exercises staging_rows) = length exercises ∧
  ∀ (i : nat) (ex : Exercise),
    exercises !! i = Some ex →
    ∃ ex', load_exercises exercises staging_rows !! i = Some ex' ∧
      same_exercise_columns ex ex' ∧
      ex_body_parts ex' =
        staging_match staging_rows (ex_slug ex) ≫= s_body_parts ∧
      ex_exercise_type ex' =
        staging_match staging_rows (ex_slug ex) ≫= s_exercise_type ∧
      ex_target_muscles ex' =
        staging_match staging_rows (ex_slug ex) ≫= s_target_muscles.
Proof.
  unfold load_exercises. split; [by rewrite length_map|].
  intros i ex Hi. eexists. split.
  - change (map ?f ?l) with (f <$> l). by rewrite list_lookup_fmap, Hi.
  - unfold join_staging. cbn. rewrite staging_by_slug_lookup.
    by repeat split.
Qed.

Example squat_gets_last_staging_row :
  ex_body_parts <$> load_exercises [scenario_A; idle_exercise 2] staging_sample
  = [Some "upper legs"; None].
Proof. vm_compute. reflexivity. Qed.

(** ** The rules of the inferencer *)

Lemma infer_topics_flags (ex : Exercise) (t : string) :
  t ∈ infer_topics ex ↔
  (t = "hrt_strength" ∧
     (bool_decide (pattern_of ex ∈ ["hinge"; "squat"; "lunge"; "carry"; "gait"])
      || bool_decide (pattern_of ex = "core")
      || negb (bool_truthy (ex_pelvic_floor_safe ex))) = true) ∨
  (t = "bone_health" ∧
     (bool_decide (pattern_of ex ∈ ["hinge"; "squat"; "lunge"; "carry"; "gait"])
      || bool_decide (pattern_of ex = "core")
      || bool_decide (goal_of ex ∈ ["mobility"; "recovery"])) = true) ∨
  (t = "top_surgery" ∧
     (bool_decide (goal_of ex ∈ ["mobility"; "recovery"])
      || existsb (λ k, str_in k (body_parts_of ex))
           ["chest"; "shoulder"; "upper arm"]
      || bool_truthy (ex_binder_aware ex)) = true) ∨
  (t = "cardio_risk" ∧
     (bool_decide (goal_of ex = "conditioning")
      || bool_decide (exercise_type_of ex ∈ ["cardio"; "plyometrics"])) = true).
Proof.
  unfold infer_topics, pattern_of, goal_of, exercise_type_of, body_parts_of.
  generalize (bool_decide (lower (str_or (ex_pattern ex) "")
                ∈ ["hinge"; "squat"; "lunge"; "carry"; "gait"])).
  generalize (bool_decide (lower (str_or (ex_pattern ex) "") = "core")).
  generalize (bool_decide (lower (str_or (ex_goal ex) "") = "conditioning")).
  generalize (bool_decide (lower (str_or (ex_exercise_type ex) "")
                ∈ ["cardio"; "plyometrics"])).
  generalize (bool_decide (lower (str_or (ex_goal ex) "")
                ∈ ["mobility"; "recovery"])).
  generalize (existsb (λ k, str_in k (lower (str_or (ex_body_parts ex) "")))
                ["chest"; "shoulder"; "upper arm"]).
  generalize (bool_truthy (ex_binder_aware ex)).
  generalize (bool_truthy (ex_pelvic_floor_safe ex)).
  intros [] [] [] [] [] [] [] []; cbn [orb negb]; set_solver.
Qed.

Lemma loaded_pattern_flags (ex : Exercise) :
  (bool_decide (pattern_of ex ∈ ["hinge"; "squat"; "lunge"; "carry"; "gait"])
   || bool_decide (pattern_of ex = "core")) = true ↔ loaded_pattern ex.
Proof.
  unfold loaded_pattern.
  rewrite orb_true_iff, !bool_decide_eq_true. set_solver.
Qed.

Lemma upper_body_flag (ex : Exercise) :
  existsb (λ k, str_in k (body_parts_of ex)) ["chest"; "shoulder"; "upper arm"]
  = true ↔ upper_body ex.
Proof.
  unfold upper_body. rewrite existsb_exists.
  split; intros (k & Hk & Hin); exists k; split; try done;
    by apply list_elem_of_In.
Qed.

Lemma infer_topics_rules (ex : Exercise) (t : string) :
  t ∈ infer_topics ex ↔
  (t = "hrt_strength" ∧
     (loaded_pattern ex ∨ bool_truthy (ex_pelvic_floor_safe ex) = false)) ∨
  (t = "bone_health" ∧ (loaded_pattern ex ∨ gentle_goal ex)) ∨
  (t = "top_surgery" ∧
     (gentle_goal ex ∨ upper_body ex ∨
      bool_truthy (ex_binder_aware ex) = true)) ∨
  (t = "cardio_risk" ∧ conditioning ex).
Proof.
  rewrite infer_topics_flags.
  rewrite <- (loaded_pattern_flags ex), <- (upper_body_flag ex).
  unfold gentle_goal, conditioning.
  rewrite !orb_true_iff, !bool_decide_eq_true, negb_true_iff.
  tauto.
Qed.

(** X6. The rules of the inferencer, tag by tag: each of the four tags is in
    the list the inferencer returns exactly when one of the conditions that
    add it holds, and the list holds each tag at most once. *)
Theorem inferred_tag_iff_rule (ex : Exercise) :
  NoDup (infer_topics_for_exercise ex) ∧
  ∀ t, t ∈ infer_topics_for_exercise ex ↔
    (t = "hrt_strength" ∧
       (loaded_pattern ex ∨ bool_truthy (ex_pelvic_floor_safe ex) = false)) ∨
    (t = "bone_health" ∧ (loaded_pattern ex ∨ gentle_goal ex)) ∨
    (t = "top_surgery" ∧
       (gentle_goal ex ∨ upper_body ex ∨
        bool_truthy (ex_binder_aware ex) = true)) ∨
    (t = "cardio_risk" ∧ conditioning ex).
Proof.
  unfold infer_topics_for_exercise. split; [apply NoDup_elements|].
  intros t. rewrite elem_of_elements. apply infer_topics_rules.
Qed.

(** X7. An exercise is left without topics exactly when it is marked
    pelvic-floor safe, is not binder aware, and neither its pattern, its goal,
    its exercise type nor its body parts meet a rule; an exercise whose
    [pelvic_floor_safe] is false or missing always has a topic. *)
Theorem no_topic_iff_no_rule (ex : Exercise) :
  infer_topics_for_exercise ex = [] ↔
  ¬ loaded_pattern ex ∧ ¬ gentle_goal ex ∧ ¬ conditioning ex ∧
  ¬ upper_body ex ∧ bool_truthy (ex_binder_aware ex) = false ∧
  ex_pelvic_floor_safe ex = Some true.
Proof.
  unfold infer_topics_for_exercise. rewrite elements_empty_iff.
  split.
  - intros Hempty.
    assert (Hnone : ∀ t, t ∉ infer_topics ex) by (intros t; rewrite Hempty; set_solver).
    pose proof (λ t, proj2 (infer_topics_rules ex t)) as Hrule.
    assert (Hpf : bool_truthy (ex_pelvic_floor_safe ex) = true).
    { destruct (bool_truthy (ex_pelvic_floor_safe ex)) eqn:Hpf; [done|].
      destruct (Hnone "hrt_strength"). apply Hrule. left. auto. }
    repeat split.
    + intros H. destruct (Hnone "hrt_strength"). apply Hrule. left. auto.
    + intros H. destruct (Hnone "bone_health"). apply Hrule.
      right. left. auto.
    + intros H. destruct (Hnone "cardio_risk"). apply Hrule.
      right. right. right. auto.
    + intros H. destruct (Hnone "top_surgery"). apply Hrule.
      right. right. left. auto.
    + destruct (bool_truthy (ex_binder_aware ex)) eqn:Hb; [|done].
      destruct (Hnone "top_surgery"). apply Hrule. right. right. left. auto.
    + by destruct (ex_pelvic_floor_safe ex) as [[]|].
  - intros (Hp & Hg & Hc & Hu & Hb & Hpf).
    intros t. rewrite infer_topics_rules, Hb, Hpf. cbn.
    split; [|set_solver]. intros [(_&[?|?])|[(_&[?|?])|[(_&[?|[?|?]])|(_&?)]]];
      done.
Qed.

(** ** More on the context builder *)

Lemma intersects_same_set (rt et et' : list string) :
  (∀ t, t ∈ et ↔ t ∈ et') → intersects rt et = intersects rt et'.
Proof.
  intros Hsame. apply eq_true_iff_eq. rewrite !intersects_spec.
  split; intros (t & Ht & Hr); exists t; split; try done; by apply Hsame.
Qed.

Lemma scan_same_set (rows : list ResearchRow) (et et' : list string) (max : Z) :
  (∀ t, t ∈ et ↔ t ∈ et') →
  ∀ acc, scan rows et max acc = scan rows et' max acc.
Proof.
  intros Hsame. induction rows as [|row rest IH]; intros acc; cbn [scan];
    [done|].
  rewrite (intersects_same_set _ et et' Hsame).
  destruct (intersects (row_topics row) et'); case_bool_decide; auto.
Qed.

(** X8. The context depends on the exercise topics as a set only: two topic
    lists with the same members, in whatever order and with whatever
    repetitions, give the same context and the same DOIs. In particular the
    order in which the inferred set is listed does not matter. *)
Theorem context_ignores_topic_order (rows : list ResearchRow)
    (et et' : list string) (max_articles : Z) :
  (∀ t, t ∈ et ↔ t ∈ et') →
  build_research_context_for_topics rows et max_articles =
  build_research_context_for_topics rows et' max_articles.
Proof.
  intros Hsame. unfold build_research_context_for_topics.
  rewrite (scan_same_set rows et et' max_articles Hsame).
  destruct et as [|t ts], et' as [|t' ts']; try done.
  - assert (H : t' ∈ @nil string) by (apply Hsame; left).
    by apply not_elem_of_nil in H.
  - assert (H : t ∈ @nil string) by (apply Hsame; left).
    by apply not_elem_of_nil in H.
Qed.

Lemma context_ignores_topic_order_witness :
  (∀ t, t ∈ ["bone_health"; "hrt_strength"; "bone_health"] ↔
        t ∈ infer_topics_for_exercise scenario_A) ∧
  build_research_context_for_topics [evidence_row; bone_row]
    ["bone_health"; "hrt_strength"; "bone_health"] default_max_articles =
  build_research_context_for_topics [evidence_row; bone_row]
    (infer_topics_for_exercise scenario_A) default_max_articles.
Proof.
  assert (Hsame : ∀ t, t ∈ ["bone_health"; "hrt_strength"; "bone_health"] ↔
                       t ∈ infer_topics_for_exercise scenario_A).
  { intros t. unfold infer_topics_for_exercise.
    rewrite elem_of_elements, scenario_A_topics. set_solver. }
  split; [exact Hsame|].
  exact (context_ignores_topic_order _ _ _ default_max_articles Hsame).
Defined.

Lemma dois_of_elem (matched : list ResearchRow) (d : string) :
  d ∈ dois_of matched ↔
  d ≠ "" ∧ ∃ row, row ∈ matched ∧ r_doi row = Some d.
Proof.
  unfold dois_of. rewrite list_elem_of_omap. split.
  - intros (row & Hrow & Hd). destruct (r_doi row) as [d'|] eqn:Hdoi; [|done].
    destruct d' as [|c d']; [done|]. injection Hd as <-.
    split; [done|]. by exists row.
  - intros (Hne & row & Hrow & Hdoi). exists row. split; [done|].
    rewrite Hdoi. by destruct d.
Qed.

Lemma dois_of_length (matched : list ResearchRow) :
  (length (dois_of matched) ≤ length matched)%nat.
Proof.
  induction matched as [|r rs IH]; [done|]. unfold dois_of. cbn.
  fold (dois_of rs). destruct (r_doi r) as [[|c d]|]; cbn; lia.
Qed.

Lemma build_dois_elem (rows : list ResearchRow) (topics : list string)
    (max : Z) (d : string) :
  d ∈ (build_research_context_for_topics rows topics max).2 →
  d ≠ "" ∧
  ∃ row, row ∈ rows ∧ r_doi row = Some d ∧
         intersects (row_topics row) topics = true.
Proof.
  unfold build_research_context_for_topics. intros Hd.
  destruct topics as [|t ts]; [by apply not_elem_of_nil in Hd|].
  destruct (scan rows (t :: ts) max []) as [|r rs] eqn:Hscan;
    [by apply not_elem_of_nil in Hd|].
  cbn [snd] in Hd. apply dois_of_elem in Hd as (Hne & row & Hrow & Hdoi).
  split; [done|]. exists row. rewrite <- Hscan in Hrow.
  apply scan_elem in Hrow as [Hrow|[Hrow Hhit]];
    [by apply not_elem_of_nil in Hrow|done].
Qed.

(** X9. Every DOI the builder returns is a non-empty DOI of a row of the
    input whose topics intersect the exercise's, and there are no more DOIs
    than selected rows, whatever the limit. *)
Theorem dois_come_from_matching_rows (rows : list ResearchRow)
    (topics : list string) (max_articles : Z) :
  let dois := (build_research_context_for_topics rows topics max_articles).2 in
  (∀ d, d ∈ dois →
     d ≠ "" ∧
     ∃ row, row ∈ rows ∧ r_doi row = Some d ∧
            intersects (row_topics row) topics = true) ∧
  (length dois ≤ length (scan rows topics max_articles []))%nat.
Proof.
  intros dois. subst dois. split.
  - intros d. apply build_dois_elem.
  - unfold build_research_context_for_topics.
    destruct topics as [|t ts]; [cbn; lia|].
    destruct (scan rows (t :: ts) max_articles []) as [|r rs];
      [cbn; lia|cbn [snd]; apply dois_of_length].
Qed.

(** ** The loop of [main] *)

(** X10. The loop only appends to the tip table: what was stored stays, in
    place, and every record added is one written for an exercise of the list
    that has topics, under the key of the run, with a truthy tips value, the
    DOIs of the builder and the review flag set; the records are added in
    the order of the exercises. *)
Theorem run_appends_reviewed_tips (W : World) (max : option Z)
    (rows : list ResearchRow) (population context : string)
    (exercises : list Exercise) (pc : Z) (st : State) :
  ∃ added,
    exercise_trans_tips (final_state
      (main_loop W max rows population context exercises pc st)) =
      exercise_trans_tips st ++ added ∧
    Forall (written_for rows population context exercises) added ∧
    map t_exercise_id added `sublist_of` map ex_id exercises.
Proof.
  destruct (main_loop_trace W max rows population context exercises pc st)
    as (n & added & lines & _ & Ht & _ & Hids & Hadd & Hw & _).
  exists added. split; [done|]. split.
  - eapply Forall_impl; [exact Hw|]. intros rec. apply written_for_mono.
    intros e He. eapply elem_of_sublist; [exact He|apply sublist_take].
  - rewrite Hadd. transitivity (map line_id lines).
    + apply sublist_map, sublist_filter.
    + rewrite Hids. apply sublist_map, sublist_take.
Qed.

(** X11. The loop meets the exercises in the order of the list and prints
    exactly one line for each one it meets, about that exercise; it stops
    early only when the limit is reached or an insert raises, and the
    exercise whose insert raised prints no line. *)
Theorem lines_follow_exercise_order (W : World) (max : option Z)
    (rows : list ResearchRow) (population context : string)
    (exercises : list Exercise) (pc : Z) (st : State) :
  let r := main_loop W max rows population context exercises pc st in
  ∃ (n : nat) (lines : list Line),
    stdout (final_state r) = stdout st ++ lines ∧
    map line_id lines = map ex_id (take n exercises) ∧
    match r with
    | Done pc' _ => n = length exercises ∨ limit_reached max pc' = true
    | Aborted _ => (n < length exercises)%nat
    end.
Proof.
  intros r. subst r.
  destruct (main_loop_trace W max rows population context exercises pc st)
    as (n & added & lines & _ & _ & Ho & Hids & _ & _ & _ & _ & Hr).
  exists n, lines. split; [done|]. split; [done|].
  destruct (main_loop W max rows population context exercises pc st).
  - by destruct Hr as (_ & _ & ?).
  - by destruct Hr as (_ & ?).
Qed.

Lemma inserted_lines_app (a b : list Line) :
  inserted_lines (a ++ b) = (inserted_lines a + inserted_lines b)%nat.
Proof. unfold inserted_lines. by rewrite filter_app, length_app. Qed.

(** X12. The count the loop reports is the number of tips it stored, which is
    also the number of [Inserted tips] lines it printed and of inserts it
    made; a run ended by a raising insert made one insert more than it stored
    tips. No insert is made without a call to the generation service. *)
Theorem reported_count_is_tips_stored (W : World) (max : option Z)
    (rows : list ResearchRow) (population context : string)
    (exercises : list Exercise) (pc : Z) (st : State) :
  let r := main_loop W max rows population context exercises pc st in
  ∃ k : nat,
    length (exercise_trans_tips (final_state r)) =
      (length (exercise_trans_tips st) + k)%nat ∧
    inserted_lines (stdout (final_state r)) =
      (inserted_lines (stdout st) + k)%nat ∧
    (insert_calls (final_state r) + api_calls st ≤
     api_calls (final_state r) + insert_calls st)%nat ∧
    match r with
    | Done pc' st' =>
        pc' = pc + Z.of_nat k ∧ insert_calls st' = (insert_calls st + k)%nat
    | Aborted st' => insert_calls st' = S (insert_calls st + k)
    end.
Proof.
  intros r. subst r.
  destruct (main_loop_trace W max rows population context exercises pc st)
    as (n & added & lines & _ & Ht & Ho & _ & Hadd & _ & _ & Hcalls & Hr).
  exists (length added). rewrite Ht, Ho, length_app, inserted_lines_app.
  split; [done|]. split.
  { f_equal. unfold inserted_lines.
    by rewrite <- (length_map line_id), <- Hadd, length_map. }
  split; [done|].
  destruct (main_loop W max rows population context exercises pc st).
  - by destruct Hr as (? & ? & _).
  - by destruct Hr as (? & _).
Qed.

(** ** The existence check and the insert *)

Lemma already_has_tips_iff (tips : list TipRecord) (id : Z) (p c : string) :
  exercise_already_has_tips tips id p c = true ↔
  ∃ rec, rec ∈ tips ∧ has_key id p c rec.
Proof.
  unfold exercise_already_has_tips, has_key. rewrite bool_decide_eq_true.
  split.
  - intros Hlen.
    destruct (filter _ tips) as [|rec l] eqn:Hf; [cbn in Hlen; lia|].
    exists rec.
    assert (Hrec : rec ∈ filter (λ t, t_exercise_id t = id ∧
                     t_population t = p ∧ t_context t = c) tips)
      by (rewrite Hf; left).
    apply list_elem_of_filter in Hrec as [Hkey Hin]. by split.
  - intros (rec & Hin & Hkey).
    assert (Hrec : rec ∈ filter (λ t, t_exercise_id t = id ∧
                     t_population t = p ∧ t_context t = c) tips)
      by (by apply list_elem_of_filter).
    destruct (filter _ tips); [by apply not_elem_of_nil in Hrec|cbn; lia].
Qed.

(** X13. What the loop stores it finds again: every exercise for which the
    loop prints [Inserted tips] has a tip under the key of the run in the
    table the loop leaves, so that a later run skips it; and a key that had
    a tip before the loop has one after it. *)
Theorem inserted_tips_are_found (W : World) (max : option Z)
    (rows : list ResearchRow) (population context : string)
    (exercises : list Exercise) (pc : Z) (st : State) :
  let final := final_state
    (main_loop W max rows population context exercises pc st) in
  (∀ i, Inserted_tips i ∈ drop (length (stdout st)) (stdout final) →
     exercise_already_has_tips (exercise_trans_tips final) i
       population context = true) ∧
  (∀ i p c,
     exercise_already_has_tips (exercise_trans_tips st) i p c = true →
     exercise_already_has_tips (exercise_trans_tips final) i p c = true).
Proof.
  intros final. subst final.
  destruct (main_loop_trace W max rows population context exercises pc st)
    as (n & added & lines & _ & Ht & Ho & _ & Hadd & Hw & _).
  cbn zeta in Ht, Ho. rewrite Ht, Ho. split.
  - intros i Hi. rewrite drop_app_length in Hi.
    assert (Hid : i ∈ map t_exercise_id added).
    { rewrite Hadd. change i with (line_id (Inserted_tips i)).
      apply list_elem_of_fmap. exists (Inserted_tips i). split; [done|].
      by apply list_elem_of_filter. }
    apply list_elem_of_fmap in Hid as (rec & -> & Hrec).
    apply already_has_tips_iff. exists rec.
    split; [apply elem_of_app; by right|].
    rewrite Forall_forall in Hw.
    destruct (Hw rec Hrec) as (ex & _ & _ & _ & Heq).
    unfold has_key. rewrite Heq. by cbn.
  - intros i p c Hi. apply already_has_tips_iff in Hi as (rec & Hrec & Hkey).
    apply already_has_tips_iff. exists rec.
    split; [apply elem_of_app; by left|done].
Qed.

Lemma skip_all_nil (st : State) : skip_all st [] = st.
Proof. destruct st. unfold skip_all. cbn. by rewrite app_nil_r. Qed.

Lemma skip_all_print (st : State) (l : Line) (lines : list Line) :
  skip_all (print l st) lines = skip_all st (l :: lines).
Proof. unfold skip_all, print. cbn. by rewrite <- app_assoc. Qed.

(** X14. A run over exercises that all have a tip under the key of the run
    costs nothing: it calls the generation service and the insert not at
    all, leaves the tip table and the count as they were, and prints one
    [Skipping] line per exercise (none when the limit is reached at the
    start). *)
Theorem existing_tips_cost_nothing (W : World) (max : option Z)
    (rows : list ResearchRow) (population context : string)
    (exercises : list Exercise) (pc : Z) (st : State) :
  (∀ ex, ex ∈ exercises →
     exercise_already_has_tips (exercise_trans_tips st) (ex_id ex)
       population context = true) →
  main_loop W max rows population context exercises pc st =
  Done pc (skip_all st
    (if limit_reached max pc then []
     else map (λ ex, Skipping_existing_tips (ex_id ex)) exercises)).
Proof.
  revert st. induction exercises as [|ex rest IH]; intros st Hall;
    cbn [main_loop map].
  { destruct (limit_reached max pc); by rewrite skip_all_nil. }
  destruct (limit_reached max pc) eqn:Hlim; [by rewrite skip_all_nil|].
  unfold loop_body. rewrite (Hall ex) by left.
  rewrite IH.
  - by rewrite skip_all_print.
  - intros e He. cbn [print exercise_trans_tips]. apply Hall. by right.
Qed.

Lemma existing_tips_cost_nothing_witness :
  (∀ ex, ex ∈ [scenario_A] →
     exercise_already_has_tips (exercise_trans_tips (fresh [stored_tip]))
       (ex_id ex) "general" "general" = true) ∧
  main_loop raising MAX_EXERCISES [evidence_row] "general" "general"
    [scenario_A] 0 (fresh [stored_tip]) =
  Done 0 (skip_all (fresh [stored_tip])
    (if limit_reached MAX_EXERCISES 0 then []
     else map (λ ex, Skipping_existing_tips (ex_id ex)) [scenario_A])).
Proof.
  assert (H : ∀ ex, ex ∈ [scenario_A] →
     exercise_already_has_tips (exercise_trans_tips (fresh [stored_tip]))
       (ex_id ex) "general" "general" = true).
  { intros ex Hex. apply list_elem_of_singleton in Hex as ->.
    vm_compute. reflexivity. }
  split; [exact H|].
  exact (existing_tips_cost_nothing raising MAX_EXERCISES [evidence_row]
           "general" "general" [scenario_A] 0 (fresh [stored_tip]) H).
Defined.

(** ** Research that matches nothing *)

Lemma intersects_nil_l (et : list string) : intersects [] et = false.
Proof.
  unfold intersects. induction et as [|t ts IH]; [done|]. cbn [existsb].
  rewrite IH. rewrite bool_decide_eq_false_2; [done|apply not_elem_of_nil].
Qed.

Lemma scan_untagged (rows : list ResearchRow) (topics : list string) (max : Z) :
  (∀ row, row ∈ rows → row_topics row = []) →
  scan rows topics max [] = [].
Proof.
  induction rows as [|row rest IH]; intros Hall; cbn [scan]; [done|].
  rewrite (Hall row) by left. rewrite intersects_nil_l.
  case_bool_decide; [done|]. apply IH. intros r Hr. apply Hall. by right.
Qed.

Lemma build_untagged (rows : list ResearchRow) (topics : list string) (max : Z) :
  (∀ row, row ∈ rows → row_topics row = []) →
  build_research_context_for_topics rows topics max = ("", []).
Proof.
  intros Hall. unfold build_research_context_for_topics.
  destruct topics; [done|]. by rewrite scan_untagged.
Qed.

(** X15. With research rows that carry no topic (an empty table, or rows
    whose [topics] is null or empty) the loop generates nothing: it ends
    normally with the count, the tip table and the call counts as they were,
    and every line it prints is one of the three skips that come before the
    generator call. *)
Theorem untagged_research_generates_nothing (W : World) (max : option Z)
    (rows : list ResearchRow) (population context : string)
    (exercises : list Exercise) (pc : Z) (st : State) :
  (∀ row, row ∈ rows → row_topics row = []) →
  ∃ lines,
    main_loop W max rows population context exercises pc st =
      Done pc (skip_all st lines) ∧
    Forall (λ l, before_generation l = true) lines.
Proof.
  intros Hall. revert st.
  induction exercises as [|ex rest IH]; intros st; cbn [main_loop].
  { exists []. by rewrite skip_all_nil. }
  destruct (limit_reached max pc).
  { exists []. by rewrite skip_all_nil. }
  unfold loop_body. rewrite (build_untagged rows _ _ Hall).
  destruct (exercise_already_has_tips _ _ _ _);
    [|destruct (infer_topics_for_exercise ex); cbn [str_truthy negb]].
  all: match goal with
       | |- context [main_loop _ _ _ _ _ _ _ (print ?l ?s)] =>
           destruct (IH (print l s)) as (lines & -> & Hq);
           exists (l :: lines); rewrite skip_all_print;
           split; [done|by constructor]
       end.
Qed.

Lemma untagged_research_generates_nothing_witness :
  (∀ row, row ∈ [bone_row] → row_topics row = []) ∧
  ∃ lines,
    main_loop (answers malformed_tips) MAX_EXERCISES [bone_row]
      "general" "general" [scenario_A] 0 (fresh []) =
      Done 0 (skip_all (fresh []) lines) ∧
    Forall (λ l, before_generation l = true) lines.
Proof.
  assert (H : ∀ row, row ∈ [bone_row] → row_topics row = []).
  { intros row Hrow. by apply list_elem_of_singleton in Hrow as ->. }
  split; [exact H|].
  exact (untagged_research_generates_nothing (answers malformed_tips)
           MAX_EXERCISES [bone_row] "general" "general" [scenario_A] 0
           (fresh []) H).
Defined.

(** ** From the tables to the tips *)

Lemma updated_rows_origin (table : list ResearchRow) (row : ResearchRow) :
  row ∈ updated_rows (update_research_topics table) →
  ∃ r, r ∈ table ∧ r_relevant r = true ∧ same_article r row.
Proof.
  unfold update_research_topics.
  destruct (tag_loop_spec (filter (λ r, r_relevant r = true) table) table)
    as (_ & -> & _).
  intros Hrow. apply list_elem_of_fmap in Hrow as (r & -> & Hr).
  apply list_elem_of_filter in Hr as [Hrel Hin].
  exists r. split; [done|]. split; [done|apply settle_same].
Qed.

Lemma load_exercises_origin (exercises : list Exercise)
    (staging_rows : list StagingRow) (ex' : Exercise) :
  ex' ∈ load_exercises exercises staging_rows →
  ∃ ex, ex ∈ exercises ∧ ex_id ex' = ex_id ex.
Proof.
  unfold load_exercises. intros Hex.
  apply list_elem_of_fmap in Hex as (ex & -> & Hin). by exists ex.
Qed.

(** X16. End to end: whatever the services answer and whatever the limit,
    [main] keeps the tips it finds and appends only tips that can be traced
    to its tables: each is filed under population and context [general],
    is flagged for review, holds a truthy tips value, belongs to an exercise
    of the exercise table, and cites only non-empty DOIs of research
    articles marked relevant. *)
Theorem main_writes_traceable_tips (max : option Z) (W : World) (db : Db) :
  ∃ added,
    exercise_trans_tips (final_state (main_with max W db).2) =
      tips_table db ++ added ∧
    Forall (traceable db) added.
Proof.
  unfold main_with. cbn [snd].
  destruct (main_loop_trace W max
              (updated_rows (update_research_topics (transfit_research db)))
              "general" "general"
              (load_exercises (exercises_table db) (staging_exercisedb db))
              0 (fresh (tips_table db)))
    as (n & added & lines & _ & Ht & _ & _ & _ & Hw & _).
  exists added. split; [exact Ht|].
  eapply Forall_impl; [exact Hw|].
  intros rec (ex' & Hex' & _ & Htips & Hrec).
  assert (Hin : ex' ∈ load_exercises (exercises_table db)
                        (staging_exercisedb db))
    by (eapply elem_of_sublist; [exact Hex'|apply sublist_take]).
  apply load_exercises_origin in Hin as (ex & Hex & Hid).
  unfold traceable. rewrite Hrec. cbn.
  split; [done|]. split; [done|]. split; [done|].
  split; [by rewrite Hrec in Htips|].
  split; [by exists ex|].
  intros d Hd. apply build_dois_elem in Hd as (Hne & row & Hrow & Hdoi & _).
  split; [done|].
  apply updated_rows_origin in Hrow as (r & Hr & Hrel & Hsame).
  exists r. split; [done|]. split; [done|].
  destruct Hsame as (_ & _ & _ & _ & _ & _ & Hd & _). by rewrite <- Hd.
Qed.

(** X17. A context the builder returns is never blank when it is non-empty,
    so the generator's shortcut for a blank context is never taken on it:
    the generation service is called exactly once, and the generator returns
    what the service answered (no value when the call raised or the content
    did not parse), leaving the tip table, the insert count and the output
    alone. *)
Theorem built_context_reaches_service (rows : list ResearchRow)
    (topics : list string) (max_articles : Z) (W : World) (ex : Exercise)
    (st : State) :
  let built := build_research_context_for_topics rows topics max_articles in
  let out := generate_tips_json_for_exercise W ex built.1 built.2 st in
  str_truthy built.1 = true →
  out.1 = returned (chat_completions_create W (api_calls st) ex
                      built.1 built.2) ∧
  api_calls out.2 = S (api_calls st) ∧
  exercise_trans_tips out.2 = exercise_trans_tips st ∧
  insert_calls out.2 = insert_calls st ∧
  stdout out.2 = stdout st.
Proof.
  intros built out Htruthy. subst out.
  unfold generate_tips_json_for_exercise.
  rewrite (built_context_not_blank rows topics max_articles built.1 built.2
             (surjective_pairing built) Htruthy).
  by destruct (chat_completions_create W (api_calls st) ex built.1 built.2)
    as [|[tips|]].
Qed.

Lemma built_context_reaches_service_witness :
  str_truthy (build_research_context_for_topics [evidence_row]
                ["hrt_strength"] default_max_articles).1 = true ∧
  let built := build_research_context_for_topics [evidence_row]
                 ["hrt_strength"] default_max_articles in
  let out := generate_tips_json_for_exercise raising scenario_A
               built.1 built.2 (fresh []) in
  out.1 = returned (chat_completions_create raising
                      (api_calls (fresh [])) scenario_A built.1 built.2) ∧
  api_calls out.2 = S (api_calls (fresh [])) ∧
  exercise_trans_tips out.2 = exercise_trans_tips (fresh []) ∧
  insert_calls out.2 = insert_calls (fresh []) ∧
  stdout out.2 = stdout (fresh []).
Proof.
  assert (H : str_truthy (build_research_context_for_topics [evidence_row]
                ["hrt_strength"] default_max_articles).1 = true)
    by (vm_compute; reflexivity).
  split; [exact H|].
  exact (built_context_reaches_service [evidence_row] ["hrt_strength"]
           default_max_articles raising scenario_A (fresh []) H).
Defined.
